(** * WebSpocket: a shallow embedding of the WebSocket client

    The development follows the TypeScript sources
    ([FrameGenerator], [read], [write], [WebSpocketClient]) and states the
    properties of the frame codec, the handshake validation, the receive
    loop and the connection state machine over that embedding. *)

From Stdlib Require Import ZArith List Bool Lia.
From Stdlib.Strings Require Import Byte.
From Stdlib.Strings Require String Ascii.
Import (notations) String.
Import ListNotations.
Local Open Scope Z_scope.

(* ================================================================== *)
(** ** JavaScript numbers, bitwise operators and typed arrays *)
(* ================================================================== *)

Module JS.

(** [ToInt32] of an integral Number: reduction modulo 2^32 into
    [-2^31, 2^31). *)
Definition ToInt32 (x : Z) : Z :=
  let m := x mod 2 ^ 32 in
  if 2 ^ 31 <=? m then m - 2 ^ 32 else m.

(** [a & b], [a | b], [a ^ b]: both operands go through [ToInt32]. *)
Definition band (a b : Z) : Z := Z.land (ToInt32 a) (ToInt32 b).
Definition bor (a b : Z) : Z := Z.lor (ToInt32 a) (ToInt32 b).
Definition bxor (a b : Z) : Z := Z.lxor (ToInt32 a) (ToInt32 b).

(** [a << n] and [a >> n]: the shift count is taken modulo 32. *)
Definition shl (a n : Z) : Z := ToInt32 (Z.shiftl (ToInt32 a) (n mod 32)).
Definition sar (a n : Z) : Z := Z.shiftr (ToInt32 a) (n mod 32).

(** Bytes of a [Uint8Array] and their numeric value. *)
Definition b2z (b : byte) : Z := Z.of_N (Byte.to_N b).

(** Storing a Number into a [Uint8Array] slot keeps it modulo 256. *)
Definition u8 (z : Z) : byte :=
  match Byte.of_N (Z.to_N (z mod 256)) with
  | Some b => b
  | None => x00
  end.

Definition Uint8Array := list byte.

(** [new Uint8Array(n)]: [n] zero bytes. *)
Definition new_Uint8Array (n : nat) : Uint8Array := repeat x00 n.

(** [a[i]]: [None] stands for [undefined] (index outside the array). *)
Definition get (a : Uint8Array) (i : Z) : option byte :=
  if i <? 0 then None else nth_error a (Z.to_nat i).

(** The Number a bitwise operator sees for [a[i]]: [undefined] becomes
    NaN and [ToInt32(NaN)] is 0. *)
Definition int32_of (o : option byte) : Z :=
  match o with
  | Some b => b2z b
  | None => 0
  end.

(** [a[i] = v] inside the array (stores outside are ignored). *)
Fixpoint store (a : Uint8Array) (i : nat) (v : byte) : Uint8Array :=
  match a, i with
  | [], _ => []
  | _ :: t, O => v :: t
  | h :: t, S k => h :: store t k v
  end.

(** [a.set(src, off)] when [src] fits: overwrite from index [off]. *)
Fixpoint set_from (a : Uint8Array) (off : nat) (src : Uint8Array) : Uint8Array :=
  match off, a with
  | O, _ => src ++ skipn (length src) a
  | S k, [] => []
  | S k, h :: t => h :: set_from t k src
  end.

(** Relative index normalisation of [subarray]/[slice]. *)
Definition rel_index (len i : Z) : Z :=
  if i <? 0 then Z.max (len + i) 0 else Z.min i len.

(** [a.subarray(b, e)] (the viewed bytes). *)
Definition subarray (a : Uint8Array) (b e : Z) : Uint8Array :=
  let len := Z.of_nat (length a) in
  let bi := rel_index len b in
  let ei := rel_index len e in
  firstn (Z.to_nat (Z.max (ei - bi) 0)) (skipn (Z.to_nat bi) a).

End JS.

Import JS.

(* ================================================================== *)
(** ** FrameGenerator *)
(* ================================================================== *)

(** The four bytes [crypto.getRandomValues] puts into [maskingKey]. *)
Definition MaskingKey : Type := (byte * byte * byte * byte)%type.

Definition key_bytes (k : MaskingKey) : Uint8Array :=
  let '(a, b, c, d) := k in [a; b; c; d].

(** [maskingKey[i % 4]] *)
Definition key_at (k : MaskingKey) (i : nat) : byte :=
  nth (i mod 4)%nat (key_bytes k) x00.

(** [for (i = 0; i < payloadLen; i++) data[i] ^= maskingKey[i % 4]],
    started at index [i]. *)
Fixpoint xor_from (i : nat) (k : MaskingKey) (data : Uint8Array) : Uint8Array :=
  match data with
  | [] => []
  | b :: t => u8 (bxor (b2z b) (b2z (key_at k i))) :: xor_from (S i) k t
  end.

(** [masked ? 0x80 : 0x00] on the raw constructor parameter:
    [undefined] is falsy. *)
Definition mask_flag (masked : option bool) : Z :=
  match masked with
  | Some true => 0x80
  | _ => 0x00
  end.

(** The private field [this.masked]: initialised to [true], replaced
    only by a defined parameter that differs from it. *)
Definition this_masked (masked : option bool) : bool :=
  match masked with
  | Some m => m
  | None => true
  end.

(** The eight stores [header[2 + i] = (payloadLen >> ((7 - i) * 8)) & 0xff]. *)
Fixpoint store_len8 (header : Uint8Array) (payloadLen : Z) (i : nat) (n : nat)
  : Uint8Array :=
  match n with
  | O => header
  | S n' =>
      store_len8
        (store header (2 + i)
           (u8 (band (sar payloadLen ((7 - Z.of_nat i) * 8)) 0xff)))
        payloadLen (S i) n'
  end.

Record Generated := {
  frame : Uint8Array;      (* the [frame] field of the object *)
  header_of : Uint8Array;  (* the local [header] when the constructor ends *)
  data_after : Uint8Array  (* the caller's [data] array when it ends *)
}.

(** [new FrameGenerator(opcode, data, masked)], with the random bytes
    [rnd] that [crypto.getRandomValues] would deliver. *)
Definition FrameGenerator (opcode : Z) (data : Uint8Array)
    (masked : option bool) (rnd : MaskingKey) : Generated :=
  let headerLen := if this_masked masked then 6%nat else 2%nat in
  let payloadLen := Z.of_nat (length data) in
  let payloadLenBytes :=
    if payloadLen >? 125
    then if payloadLen <=? 65535 then 2%nat else 8%nat
    else 0%nat in
  let header := new_Uint8Array (headerLen + payloadLenBytes) in
  let header := store header 0 (u8 (bor 0x80 opcode)) in
  let header :=
    if payloadLen <=? 125 then
      store header 1 (u8 (bor (mask_flag masked) payloadLen))
    else if payloadLen <=? 65535 then
      let header := store header 1 (u8 (bor (mask_flag masked) 126)) in
      let header := store header 2 (u8 (band (sar payloadLen 8) 0xff)) in
      store header 3 (u8 (band payloadLen 0xff))
    else
      let header := store header 1 (u8 (bor (mask_flag masked) 127)) in
      store_len8 header payloadLen 0 8 in
  let header :=
    if this_masked masked
    then set_from header (headerLen - 4) (key_bytes rnd)
    else header in
  let data' :=
    match masked with
    | Some true => if this_masked masked then xor_from 0 rnd data else data
    | _ => data
    end in
  {| frame := header ++ data';
     header_of := header;
     data_after := data' |}.


(* ================================================================== *)
(** ** JavaScript strings, TextDecoder and TextEncoder *)
(* ================================================================== *)

Module Text.

(** A JavaScript string is a sequence of UTF-16 code units. *)
Definition jsstring := list Z.

(** An ASCII literal of the source as a [jsstring]. *)
Fixpoint lit (s : String.string) : jsstring :=
  match s with
  | String.EmptyString => []
  | String.String c t => Z.of_N (Ascii.N_of_ascii c) :: lit t
  end.

Arguments lit s%_string_scope.

Fixpoint str_eqb (a b : jsstring) : bool :=
  match a, b with
  | [], [] => true
  | x :: a', y :: b' => (x =? y) && str_eqb a' b'
  | _, _ => false
  end.

(** [l.join(sep)] *)
Fixpoint join (l : list jsstring) (sep : jsstring) : jsstring :=
  match l with
  | [] => []
  | [x] => x
  | x :: t => x ++ sep ++ join t sep
  end.

Definition crlf : jsstring := [13; 10].

(** [s.startsWith(p)] *)
Fixpoint startsWith (s p : jsstring) : bool :=
  match p, s with
  | [], _ => true
  | _ :: _, [] => false
  | x :: p', y :: s' => (x =? y) && startsWith s' p'
  end.

(** [s.split(sep)] for a non-empty separator: [skip] counts the code
    units of a separator occurrence still to be passed over, [cur] is
    the current piece, last code unit first. *)
Fixpoint split_go (sep : jsstring) (skip : nat) (cur : jsstring) (s : jsstring)
  : list jsstring :=
  match s with
  | [] => [rev cur]
  | c :: t =>
      match skip with
      | S k => split_go sep k cur t
      | O =>
          if startsWith s sep
          then rev cur :: split_go sep (length sep - 1) [] t
          else split_go sep O (c :: cur) t
      end
  end.

Definition split (s sep : jsstring) : list jsstring := split_go sep O [] s.

(** White space and line terminators removed by [String.prototype.trim]. *)
Definition is_space (c : Z) : bool :=
  (c =? 0x09) || (c =? 0x0A) || (c =? 0x0B) || (c =? 0x0C) || (c =? 0x0D)
  || (c =? 0x20) || (c =? 0xA0) || (c =? 0x1680)
  || ((0x2000 <=? c) && (c <=? 0x200A))
  || (c =? 0x2028) || (c =? 0x2029) || (c =? 0x202F) || (c =? 0x205F)
  || (c =? 0x3000) || (c =? 0xFEFF).

Fixpoint trimStart (s : jsstring) : jsstring :=
  match s with
  | c :: t => if is_space c then trimStart t else s
  | [] => []
  end.

Definition trim (s : jsstring) : jsstring :=
  rev (trimStart (rev (trimStart s))).

(** *** The UTF-8 decoder of [TextDecoder] (replacement error mode) *)

(** A multi-byte sequence in progress: code point so far, continuation
    bytes still needed, and the bounds allowed for the next byte. *)
Record Partial := {
  cp : Z;
  need : nat;
  lower : Z;
  upper : Z
}.

Inductive Lead :=
| LeadEmit (c : Z)
| LeadStart (p : Partial)
| LeadError.

(** The decoder's step when no sequence is in progress. *)
Definition lead (b : Z) : Lead :=
  if b <=? 0x7F then LeadEmit b
  else if (0xC2 <=? b) && (b <=? 0xDF) then
    LeadStart {| cp := Z.land b 0x1F; need := 1; lower := 0x80; upper := 0xBF |}
  else if (0xE0 <=? b) && (b <=? 0xEF) then
    LeadStart {| cp := Z.land b 0xF; need := 2;
                 lower := if b =? 0xE0 then 0xA0 else 0x80;
                 upper := if b =? 0xED then 0x9F else 0xBF |}
  else if (0xF0 <=? b) && (b <=? 0xF4) then
    LeadStart {| cp := Z.land b 0x7; need := 3;
                 lower := if b =? 0xF0 then 0x90 else 0x80;
                 upper := if b =? 0xF4 then 0x8F else 0xBF |}
  else LeadError.

(** Code points produced from the bytes, U+FFFD for each error; a byte
    that breaks a sequence is processed again as a lead byte. *)
Fixpoint utf8_decode (st : option Partial) (bs : Uint8Array) : list Z :=
  match bs with
  | [] =>
      match st with
      | Some _ => [0xFFFD]
      | None => []
      end
  | b :: t =>
      let on_lead :=
        match lead (b2z b) with
        | LeadEmit c => c :: utf8_decode None t
        | LeadStart p => utf8_decode (Some p) t
        | LeadError => 0xFFFD :: utf8_decode None t
        end in
      match st with
      | None => on_lead
      | Some p =>
          if (lower p <=? b2z b) && (b2z b <=? upper p) then
            let c := Z.lor (Z.shiftl (cp p) 6) (Z.land (b2z b) 0x3F) in
            match need p with
            | S (S n) =>
                utf8_decode
                  (Some {| cp := c; need := S n; lower := 0x80; upper := 0xBF |}) t
            | _ => c :: utf8_decode None t
            end
          else 0xFFFD :: on_lead
      end
  end.

(** UTF-16 code units of one code point. *)
Definition utf16_units (c : Z) : jsstring :=
  if c <? 0x10000 then [c]
  else [0xD800 + Z.shiftr (c - 0x10000) 10; 0xDC00 + Z.land (c - 0x10000) 0x3FF].

(** A byte order mark at the very start is not part of the output. *)
Definition strip_bom (cps : list Z) : list Z :=
  match cps with
  | c :: t => if c =? 0xFEFF then t else cps
  | [] => []
  end.

(** [new TextDecoder().decode(bytes)] *)
Definition TextDecoder_decode (bs : Uint8Array) : jsstring :=
  flat_map utf16_units (strip_bom (utf8_decode None bs)).

(** *** The UTF-8 encoder of [TextEncoder] *)

Definition is_high (u : Z) : bool := (0xD800 <=? u) && (u <=? 0xDBFF).
Definition is_low (u : Z) : bool := (0xDC00 <=? u) && (u <=? 0xDFFF).

(** Scalar values of the code units; a lone surrogate becomes U+FFFD.
    [pend] is a high surrogate waiting for its low half. *)
Fixpoint scalars (pend : option Z) (s : jsstring) : list Z :=
  match s with
  | [] =>
      match pend with
      | Some _ => [0xFFFD]
      | None => []
      end
  | u :: t =>
      match pend with
      | Some h =>
          if is_low u
          then (0x10000 + (h - 0xD800) * 0x400 + (u - 0xDC00)) :: scalars None t
          else if is_high u then 0xFFFD :: scalars (Some u) t
          else 0xFFFD :: u :: scalars None t
      | None =>
          if is_high u then scalars (Some u) t
          else if is_low u then 0xFFFD :: scalars None t
          else u :: scalars None t
      end
  end.

Definition utf8_bytes (c : Z) : Uint8Array :=
  if c <? 0x80 then [u8 c]
  else if c <? 0x800 then
    [u8 (0xC0 + Z.shiftr c 6); u8 (0x80 + Z.land c 0x3F)]
  else if c <? 0x10000 then
    [u8 (0xE0 + Z.shiftr c 12); u8 (0x80 + Z.land (Z.shiftr c 6) 0x3F);
     u8 (0x80 + Z.land c 0x3F)]
  else
    [u8 (0xF0 + Z.shiftr c 18); u8 (0x80 + Z.land (Z.shiftr c 12) 0x3F);
     u8 (0x80 + Z.land (Z.shiftr c 6) 0x3F); u8 (0x80 + Z.land c 0x3F)].

(** [new TextEncoder().encode(s)] *)
Definition TextEncoder_encode (s : jsstring) : Uint8Array :=
  flat_map utf8_bytes (scalars None s).

End Text.

Import Text.

(* ================================================================== *)
(** ** Platform functions of the handshake: SHA-1 and base64 *)
(* ================================================================== *)

Module Crypto.

Definition w32 (x : Z) : Z := x mod 2 ^ 32.

Definition rotl (n x : Z) : Z :=
  w32 (Z.lor (Z.shiftl x n) (Z.shiftr x (32 - n))).

(** Big-endian bytes of [x], [n] of them. *)
Fixpoint be_bytes (n : nat) (x : Z) : Uint8Array :=
  match n with
  | O => []
  | S k => u8 (Z.shiftr x (8 * Z.of_nat k)) :: be_bytes k x
  end.

(** Big-endian value of a byte sequence. *)
Definition be_value (bs : Uint8Array) : Z :=
  fold_left (fun acc b => acc * 256 + b2z b) bs 0.

(** Message padding: a one bit, zeros, and the 64-bit bit length. *)
Definition sha1_pad (msg : Uint8Array) : Uint8Array :=
  let l := Z.of_nat (length msg) in
  let zeros := Z.to_nat ((55 - l) mod 64) in
  msg ++ x80 :: repeat x00 zeros ++ be_bytes 8 (8 * l).

(** Cut into pieces of [n] elements ([fuel] bounds the number of pieces). *)
Fixpoint chunks {A} (fuel n : nat) (l : list A) : list (list A) :=
  match fuel, l with
  | _, [] => []
  | O, _ => []
  | S f, _ => firstn n l :: chunks f n (skipn n l)
  end.

(** The message schedule, most recent word first. *)
Fixpoint schedule (n : nat) (w : list Z) : list Z :=
  match n with
  | O => w
  | S k =>
      let x := Z.lxor (Z.lxor (nth 2 w 0) (nth 7 w 0))
                      (Z.lxor (nth 13 w 0) (nth 15 w 0)) in
      schedule k (rotl 1 x :: w)
  end.

Definition sha1_f (t : nat) (b c d : Z) : Z :=
  if (t <? 20)%nat then Z.lor (Z.land b c) (Z.land (Z.lxor b (2 ^ 32 - 1)) d)
  else if (t <? 40)%nat then Z.lxor (Z.lxor b c) d
  else if (t <? 60)%nat then
    Z.lor (Z.lor (Z.land b c) (Z.land b d)) (Z.land c d)
  else Z.lxor (Z.lxor b c) d.

Definition sha1_k (t : nat) : Z :=
  if (t <? 20)%nat then 0x5A827999
  else if (t <? 40)%nat then 0x6ED9EBA1
  else if (t <? 60)%nat then 0x8F1BBCDC
  else 0xCA62C1D6.

Definition Regs : Type := (Z * Z * Z * Z * Z)%type.

Fixpoint rounds (t : nat) (ws : list Z) (r : Regs) : Regs :=
  match ws with
  | [] => r
  | w :: ws' =>
      let '(a, b, c, d, e) := r in
      let tmp := w32 (rotl 5 a + sha1_f t b c d + e + sha1_k t + w) in
      rounds (S t) ws' (tmp, a, rotl 30 b, c, d)
  end.

Definition sha1_block (h : Regs) (block : Uint8Array) : Regs :=
  let w16 := map be_value (chunks 16 4 block) in
  let ws := rev (schedule 64 (rev w16)) in
  let '(h0, h1, h2, h3, h4) := h in
  let '(a, b, c, d, e) := rounds 0 ws h in
  (w32 (h0 + a), w32 (h1 + b), w32 (h2 + c), w32 (h3 + d), w32 (h4 + e)).

(** [crypto.subtle.digest("sha-1", msg)] *)
Definition sha1 (msg : Uint8Array) : Uint8Array :=
  let p := sha1_pad msg in
  let '(h0, h1, h2, h3, h4) :=
    fold_left sha1_block (chunks (length p) 64 p)
      (0x67452301, 0xEFCDAB89, 0x98BADCFE, 0x10325476, 0xC3D2E1F0) in
  be_bytes 4 h0 ++ be_bytes 4 h1 ++ be_bytes 4 h2 ++ be_bytes 4 h3
  ++ be_bytes 4 h4.

(** The base64 alphabet, as code units. *)
Definition b64_char (i : Z) : Z :=
  if i <? 26 then 65 + i
  else if i <? 52 then 97 + (i - 26)
  else if i <? 62 then 48 + (i - 52)
  else if i =? 62 then 43
  else 47.

(** [encodeBase64(bytes)] (also [btoa] of the bytes as Latin-1). *)
Fixpoint encodeBase64 (bs : Uint8Array) : jsstring :=
  match bs with
  | [] => []
  | [a] =>
      let x := b2z a in
      [b64_char (Z.shiftr x 2); b64_char (Z.land (Z.shiftl x 4) 0x3F); 61; 61]
  | [a; b] =>
      let x := b2z a * 256 + b2z b in
      [b64_char (Z.shiftr x 10); b64_char (Z.land (Z.shiftr x 4) 0x3F);
       b64_char (Z.land (Z.shiftl x 2) 0x3F); 61]
  | a :: b :: c :: t =>
      let x := (b2z a * 256 + b2z b) * 256 + b2z c in
      b64_char (Z.shiftr x 18) :: b64_char (Z.land (Z.shiftr x 12) 0x3F)
      :: b64_char (Z.land (Z.shiftr x 6) 0x3F) :: b64_char (Z.land x 0x3F)
      :: encodeBase64 t
  end.

End Crypto.

Import Crypto.

(* ================================================================== *)
(** ** Enumerations and the session state *)
(* ================================================================== *)

Inductive ReadyState := CONNECTING | CONNECTED | OPEN | CLOSING | CLOSED.

(** [ErrorTypes] is a numeric enum: its values are plain Numbers. *)
Definition ErrorTypes := Z.
Definition NONE : ErrorTypes := 0.
Definition PROTOCOL_ERROR : ErrorTypes := 1002.
Definition INVALID_OPCODE : ErrorTypes := 1003.
Definition UNSUPPORTED_DATA : ErrorTypes := 1007.
Definition POLICY_VIOLATION : ErrorTypes := 1008.
Definition MESSAGE_TOO_BIG : ErrorTypes := 1009.
Definition MANDATORY_EXTENSION : ErrorTypes := 1010.
Definition INTERNAL_ERROR : ErrorTypes := 1011.
Definition SERVICE_RESTART : ErrorTypes := 1012.
Definition TRY_AGAIN_LATER : ErrorTypes := 1013.
Definition TLS_HANDSHAKE_FAILURE : ErrorTypes := 1015.

Inductive DataTypes := TEXT | BINARY.

Inductive MessageData :=
| StringData (s : jsstring)
| BytesData (b : Uint8Array).

Record Message := {
  data : MessageData;
  type : DataTypes
}.

(** The parts of a parsed [URL] the client reads. *)
Record URL := {
  protocol : jsstring;
  hostname : jsstring;
  port : jsstring;
  pathname : jsstring;
  origin : jsstring
}.

Record ConnectionOptions := {
  opt_url : jsstring;
  opt_protocols : option (list jsstring);
  opt_headers : option (list (jsstring * jsstring));
  opt_extensions : option (list jsstring)
}.

(** A transport handle ([Deno.Conn]), known by its identity. *)
Definition Conn := nat.

(** Which asynchronous function ended in a rejected promise. *)
Inductive Origin := InConnect | InSend | InListen | InHandleFrame.

(** What the session does to its surroundings, in order. *)
Inductive Event :=
| ConnWrite (c : Conn) (bytes : Uint8Array)
| ConnClose (c : Conn)
| OnReady
| OnMessage (m : Message)
| OnClose (code : ErrorTypes)
| ConsoleError
| Rejected (o : Origin).

(** [then] callbacks waiting for a write to complete. *)
Inductive Task :=
| SendWritten
| CloseWritten (conn : Conn).

(** The object's fields, followed by the surroundings it acts on: the
    events so far (oldest first), the callbacks not yet run, and the
    bytes [crypto.getRandomValues] will deliver. *)
Record Session := {
  url : URL;
  protocols : option (list jsstring);
  headers : option (list (jsstring * jsstring));
  extensions : option (list jsstring);
  readyState : ReadyState;
  connection : option Conn;
  onReady : bool;
  onMessage : bool;
  onError : bool;
  onClose : bool;
  events : list Event;
  tasks : list Task;
  entropy : nat -> byte;
  entropy_pos : nat
}.

Definition set_readyState (r : ReadyState) (s : Session) : Session :=
  {| url := url s; protocols := protocols s; headers := headers s;
     extensions := extensions s; readyState := r;
     connection := connection s; onReady := onReady s;
     onMessage := onMessage s; onError := onError s; onClose := onClose s;
     events := events s; tasks := tasks s; entropy := entropy s;
     entropy_pos := entropy_pos s |}.

Definition set_connection (c : option Conn) (s : Session) : Session :=
  {| url := url s; protocols := protocols s; headers := headers s;
     extensions := extensions s; readyState := readyState s;
     connection := c; onReady := onReady s;
     onMessage := onMessage s; onError := onError s; onClose := onClose s;
     events := events s; tasks := tasks s; entropy := entropy s;
     entropy_pos := entropy_pos s |}.

Definition emit (e : Event) (s : Session) : Session :=
  {| url := url s; protocols := protocols s; headers := headers s;
     extensions := extensions s; readyState := readyState s;
     connection := connection s; onReady := onReady s;
     onMessage := onMessage s; onError := onError s; onClose := onClose s;
     events := events s ++ [e]; tasks := tasks s; entropy := entropy s;
     entropy_pos := entropy_pos s |}.

Definition set_tasks (t : list Task) (s : Session) : Session :=
  {| url := url s; protocols := protocols s; headers := headers s;
     extensions := extensions s; readyState := readyState s;
     connection := connection s; onReady := onReady s;
     onMessage := onMessage s; onError := onError s; onClose := onClose s;
     events := events s; tasks := t; entropy := entropy s;
     entropy_pos := entropy_pos s |}.

Definition advance (n : nat) (s : Session) : Session :=
  {| url := url s; protocols := protocols s; headers := headers s;
     extensions := extensions s; readyState := readyState s;
     connection := connection s; onReady := onReady s;
     onMessage := onMessage s; onError := onError s; onClose := onClose s;
     events := events s; tasks := tasks s; entropy := entropy s;
     entropy_pos := (entropy_pos s + n)%nat |}.

(** [crypto.getRandomValues] on a fresh 4-byte array. *)
Definition next_key (s : Session) : MaskingKey :=
  let p := entropy_pos s in
  (entropy s p, entropy s (p + 1)%nat, entropy s (p + 2)%nat,
   entropy s (p + 3)%nat).

(** [crypto.getRandomValues] on a fresh [n]-byte array. *)
Definition next_bytes (n : nat) (s : Session) : Uint8Array :=
  map (fun i => entropy s (entropy_pos s + i)%nat) (seq 0 n).

(** The optional calls [this.onX?.(...)]. *)
Definition call_onReady (s : Session) : Session :=
  if onReady s then emit OnReady s else s.
Definition call_onMessage (m : Message) (s : Session) : Session :=
  if onMessage s then emit (OnMessage m) s else s.
Definition call_onClose (code : ErrorTypes) (s : Session) : Session :=
  if onClose s then emit (OnClose code) s else s.

(* ================================================================== *)
(** ** write, read, generateSecWebSocketKey, concatenateUint8Arrays *)
(* ================================================================== *)

(** [write(conn, data)]: the body calls [conn.write] at once; with no
    connection that call throws and the returned promise is rejected.
    The boolean tells whether the write was started. *)
Definition write (conn : option Conn) (bytes : Uint8Array) (s : Session)
  : Session * bool :=
  match conn with
  | Some c => (emit (ConnWrite c bytes) s, true)
  | None => (s, false)
  end.

(** What one [conn.read(buffer)] does. *)
Inductive ReadOutcome :=
| ReadData (bytes : Uint8Array)  (* these bytes were stored in [buffer] *)
| ReadEnd                        (* resolved to [null] *)
| ReadInterrupted                (* rejected: Interrupted or BadResource *)
| ReadFailed.                    (* rejected with another error *)

Definition READ_SIZE : nat := Z.to_nat 65536.

(** [read(conn)] when [conn.read] stored [bytes]: the decoded, trimmed
    text and the whole 65536-byte buffer. *)
Definition read (bytes : Uint8Array) : jsstring * Uint8Array :=
  let got := firstn READ_SIZE bytes in
  let buffer := got ++ repeat x00 (READ_SIZE - length got) in
  (trim (TextDecoder_decode got), buffer).

Definition generateSecWebSocketKey (s : Session) : jsstring :=
  encodeBase64 (next_bytes 16 s).

(** Modelled from the spec: [concatenateUint8Arrays] is imported from
    [functions/concatenateUint8Arrays.ts], which is not among the
    sources; the spec has it "concatenate the whole sequence in order
    into one buffer". *)
Definition concatenateUint8Arrays (arrays : list Uint8Array) : Uint8Array :=
  concat arrays.

(* ================================================================== *)
(** ** WebSpocketClient *)
(* ================================================================== *)

(** [new WebSpocketClient(connectOptions)]: [None] when the constructor
    throws.  [new_URL] is the platform's URL parser ([None] when it
    throws) and [entropy0] the random bytes the object will draw; the
    callback slots start unset. *)
Definition constructor (new_URL : jsstring -> option URL)
    (connectOptions : ConnectionOptions) (entropy0 : nat -> byte)
  : option Session :=
  let readyState0 := CLOSED in
  match new_URL (opt_url connectOptions) with
  | None => None
  | Some u =>
      if negb (str_eqb (protocol u) (lit "ws:"))
         && negb (str_eqb (protocol u) (lit "wss:"))
      then None
      else
        Some {| url := u;
                protocols := opt_protocols connectOptions;
                headers := opt_headers connectOptions;
                extensions := opt_extensions connectOptions;
                readyState := readyState0;
                connection := None;
                onReady := false; onMessage := false;
                onError := false; onClose := false;
                events := []; tasks := [];
                entropy := entropy0; entropy_pos := 0 |}
  end.

(** [send(data)] *)
Definition send (data : jsstring) (s : Session) : Session :=
  match readyState s with
  | OPEN | CONNECTED =>
      match data with
      | [] => s
      | _ :: _ =>
          let s := set_readyState OPEN s in
          let g := FrameGenerator 0x1 (TextEncoder_encode data) (Some true)
                     (next_key s) in
          let s := advance 4 s in
          match write (connection s) (frame g) s with
          | (s, true) => set_tasks (tasks s ++ [SendWritten]) s
          | (s, false) => emit (Rejected InSend) s
          end
      end
  | _ => s
  end.

(** [close(errorType)] *)
Definition close (errorType : ErrorTypes) (s : Session) : Session :=
  match readyState s with
  | CLOSED | CLOSING => s
  | _ =>
      let s := set_readyState CLOSING s in
      match connection s with
      | Some conn =>
          let errorTypeBytes :=
            [u8 (band (sar errorType 8) 0xFF); u8 (band errorType 0xFF)] in
          let g := FrameGenerator 0x8 errorTypeBytes (Some true) (next_key s) in
          let s := advance 4 s in
          let s := fst (write (Some conn) (frame g) s) in
          let s := set_tasks (tasks s ++ [CloseWritten conn]) s in
          set_connection None s
      | None => s
      end
  end.

(** The oldest pending write completes and its [then] callback runs. *)
Definition settle (s : Session) : Session :=
  match tasks s with
  | [] => s
  | SendWritten :: rest => set_readyState CONNECTED (set_tasks rest s)
  | CloseWritten conn :: rest =>
      set_readyState CLOSED (emit (ConnClose conn) (set_tasks rest s))
  end.

(** The [n] oldest pending writes complete, one after the other. *)
Fixpoint settle_n (n : nat) (s : Session) : Session :=
  match n with
  | O => s
  | S n' => settle_n n' (settle s)
  end.

(** Every write pending now completes. *)
Definition settle_all (s : Session) : Session :=
  settle_n (length (tasks s)) s.

(** The transport closes that a list of pending callbacks performs. *)
Definition closes_of (ts : list Task) : list Event :=
  flat_map (fun t => match t with
                     | SendWritten => []
                     | CloseWritten c => [ConnClose c]
                     end) ts.

(** [handleFrame(opcode, data)]; the second component is the [data]
    array afterwards (masking a pong works on the caller's bytes). *)
Definition handleFrame (opcode : Z) (data : Uint8Array) (s : Session)
  : Session * Uint8Array :=
  if opcode =? 0x1 then
    (call_onMessage
       {| data := StringData (TextDecoder_decode data); type := TEXT |} s,
     data)
  else if opcode =? 0x2 then
    (call_onMessage {| data := BytesData data; type := BINARY |} s, data)
  else if opcode =? 0x9 then
    let g := FrameGenerator 0xA data (Some true) (next_key s) in
    let s := advance 4 s in
    match write (connection s) (frame g) s with
    | (s, true) => (s, data_after g)
    | (s, false) => (emit (Rejected InHandleFrame) s, data_after g)
    end
  else if opcode =? 0x8 then
    let s := set_readyState CLOSED s in
    (call_onClose
       (bor (shl (int32_of (get data 0)) 8) (int32_of (get data 1))) s,
     data)
  else (close INVALID_OPCODE s, data).

(** The loop [for (i = 0; i < 8; i++) longPayloadLen =
    (longPayloadLen << 8) | buffer[offset + i]]. *)
Fixpoint longPayloadLen (buffer : Uint8Array) (offset : Z) (i n : nat)
    (acc : Z) : Z :=
  match n with
  | O => acc
  | S n' =>
      longPayloadLen buffer offset (S i) n'
        (bor (shl acc 8) (int32_of (get buffer (offset + Z.of_nat i))))
  end.

(** What the loop body reads from the header at [offset]: the three
    bit fields, the payload length after its extension, and the offset
    where the payload starts. *)
Record Header := {
  h_fin : Z;
  h_opcode : Z;
  h_mask : Z;
  h_payloadLen : Z;
  h_start : Z
}.

Definition decode_header (buffer : Uint8Array) (offset : Z) : Header :=
  let fin := sar (band (int32_of (get buffer offset)) 0x80) 7 in
  let opcode := band (int32_of (get buffer offset)) 0x0f in
  let mask := sar (band (int32_of (get buffer (offset + 1))) 0x80) 7 in
  let payloadLen := band (int32_of (get buffer (offset + 1))) 0x7f in
  let offset := offset + 2 in
  let '(payloadLen, offset) :=
    if payloadLen =? 126 then
      (bor (shl (int32_of (get buffer offset)) 8)
           (int32_of (get buffer (offset + 1))),
       offset + 2)
    else if payloadLen =? 127 then
      (longPayloadLen buffer offset 0 8 0, offset + 8)
    else (payloadLen, offset) in
  {| h_fin := fin; h_opcode := opcode; h_mask := mask;
     h_payloadLen := payloadLen; h_start := offset |}.

(** State of the receive loop between frames. *)
Record Rx := {
  rx_session : Session;
  messageBuffer : list Uint8Array;
  rx_buffer : Uint8Array
}.

(** The reassembly step [if (fin !== 0) ... else messageBuffer.push].
    A payload is a view of [buffer] starting at [start]: bytes masked
    by the pong reply are written back.  The views kept in
    [messageBuffer] are only read while no such write happens, so they
    are held by value. *)
Definition deliver (fin opcode : Z) (payload : Uint8Array) (start : nat)
    (buffer : Uint8Array) (mb : list Uint8Array) (s : Session) : Rx :=
  if negb (fin =? 0) then
    match mb with
    | _ :: _ =>
        let mb := mb ++ [payload] in
        let completePayload := concatenateUint8Arrays mb in
        {| rx_session := fst (handleFrame opcode completePayload s);
           messageBuffer := []; rx_buffer := buffer |}
    | [] =>
        let '(s, payload') := handleFrame opcode payload s in
        {| rx_session := s; messageBuffer := mb;
           rx_buffer := set_from buffer start payload' |}
    end
  else
    {| rx_session := s; messageBuffer := mb ++ [payload];
       rx_buffer := buffer |}.

(** The inner loop [while (offset < data.length)] of [listenForFrames];
    [None] when [fuel] iterations did not end it. *)
Fixpoint frames_loop (fuel : nat) (dataLength : Z) (offset : Z)
    (buffer : Uint8Array) (mb : list Uint8Array) (s : Session) : option Rx :=
  match fuel with
  | O => None
  | S fuel' =>
      if offset <? dataLength then
        let h := decode_header buffer offset in
        if negb (h_mask h =? 0) then
          Some {| rx_session := close PROTOCOL_ERROR s;
                  messageBuffer := mb; rx_buffer := buffer |}
        else
          let payload :=
            subarray buffer (h_start h) (h_start h + h_payloadLen h) in
          let start :=
            Z.to_nat (rel_index (Z.of_nat (length buffer)) (h_start h)) in
          let rx := deliver (h_fin h) (h_opcode h) payload start buffer mb s in
          frames_loop fuel' dataLength (h_start h + h_payloadLen h)
            (rx_buffer rx) (messageBuffer rx) (rx_session rx)
      else
        Some {| rx_session := s; messageBuffer := mb; rx_buffer := buffer |}
  end.

(** The outer loop [while (this.readyState === CONNECTED)], one
    [conn.read] per iteration; it is left suspended in [await read]
    when [reads] is used up. *)
Fixpoint listen_loop (fuel : nat) (reads : list ReadOutcome)
    (mb : list Uint8Array) (s : Session) : option Session :=
  match reads with
  | [] => Some s
  | r :: rest =>
      match readyState s with
      | CONNECTED =>
          let failed := close INTERNAL_ERROR (emit ConsoleError s) in
          match connection s, r with
          | None, _ => Some failed
          | Some _, ReadInterrupted => Some s
          | Some _, ReadFailed => Some failed
          | Some _, ReadEnd => Some (close INTERNAL_ERROR s)
          | Some _, ReadData bytes =>
              let '(data, buffer) := read bytes in
              match data with
              | [] => Some (close INTERNAL_ERROR s)
              | _ :: _ =>
                  match frames_loop fuel (Z.of_nat (length data)) 0 buffer mb s with
                  | Some rx =>
                      listen_loop fuel rest (messageBuffer rx) (rx_session rx)
                  | None => None
                  end
              end
          end
      | _ => Some s
      end
  end.

(** [listenForFrames()] fed with the outcomes of its reads. *)
Definition listenForFrames (fuel : nat) (reads : list ReadOutcome)
    (s : Session) : option Session :=
  match connection s with
  | None => Some (emit (Rejected InListen) s)
  | Some _ => listen_loop fuel reads [] s
  end.

(* ================================================================== *)
(** ** The opening handshake *)
(* ================================================================== *)

(** The array [checks]: [None] is a hole of a sparse array. *)
Definition Checks := list (option bool).

(** [checks[i] = v]: a store past the end leaves holes before it. *)
Fixpoint checks_set (checks : Checks) (i : nat) (v : bool) : Checks :=
  match i, checks with
  | O, [] => [Some v]
  | O, _ :: t => Some v :: t
  | S k, [] => None :: checks_set [] k v
  | S k, h :: t => h :: checks_set t k v
  end.

(** [checks.filter(f)]: [filter] does not visit holes. *)
Fixpoint checks_filter (f : bool -> bool) (checks : Checks) : list bool :=
  match checks with
  | [] => []
  | Some b :: t => if f b then b :: checks_filter f t else checks_filter f t
  | None :: t => checks_filter f t
  end.

Definition GUID : jsstring := lit "258EAFA5-E914-47DA-95CA-C5AB0DC85B11".

(** [encodeBase64(sha1(encode(key.concat(GUID))))] *)
Definition accept_value (key : jsstring) : jsstring :=
  encodeBase64 (sha1 (TextEncoder_encode (key ++ GUID))).

(** [a === b] where [b] may be [undefined]. *)
Definition same_string (a : jsstring) (b : option jsstring) : bool :=
  match b with
  | Some b => str_eqb a b
  | None => false
  end.

(** The body of the validation loop for one line; [None] when
    [field[1].trim()] throws because [field[1]] is [undefined]. *)
Definition check_line (key : jsstring) (line : jsstring) (checks : Checks)
  : option Checks :=
  let field := split line (lit ": ") in
  let field0 := nth 0 field [] in
  let field1 := nth_error field 1 in
  let checks :=
    if startsWith field0 (lit "HTTP/1.1")
       && same_string (lit "101") (nth_error (split field0 (lit " ")) 1)
    then checks_set checks 0 true else checks in
  let checks :=
    if str_eqb field0 (lit "sec-websocket-accept")
       && same_string (accept_value key) field1
    then checks_set checks 1 true else checks in
  if str_eqb field0 (lit "connection") then
    match field1 with
    | None => None
    | Some v =>
        Some (if str_eqb (trim v) (lit "Upgrade")
              then checks_set checks 2 true else checks)
    end
  else if str_eqb field0 (lit "upgrade") then
    match field1 with
    | None => None
    | Some v =>
        Some (if str_eqb (trim v) (lit "websocket")
              then checks_set checks 3 true else checks)
    end
  else Some checks.

(** The loop over the response lines; empty lines are skipped. *)
Fixpoint check_lines (key : jsstring) (response : list jsstring)
    (checks : Checks) : option Checks :=
  match response with
  | [] => Some checks
  | [] :: rest => check_lines key rest checks
  | line :: rest =>
      match check_line key line checks with
      | Some checks => check_lines key rest checks
      | None => None
      end
  end.

(** The lines of the upgrade request before the closing empty line. *)
Definition request_lines (key : jsstring) (s : Session) : list jsstring :=
  [ lit "GET " ++ pathname (url s) ++ lit " HTTP/1.1";
    lit "host: " ++ hostname (url s);
    lit "origin: " ++ origin (url s);
    lit "user-agent: WebSpocket/1.0.0";
    lit "upgrade: websocket";
    lit "connection: Upgrade";
    lit "sec-websocket-key: " ++ key;
    lit "sec-websocket-version: 13" ]
  ++ match protocols s with
     | Some ps => [lit "sec-websocket-protocol: " ++ join ps (lit ", ")]
     | None => []
     end
  ++ match extensions s with
     | Some es => [lit "sec-websocket-extensions: " ++ join es (lit ", ")]
     | None => []
     end
  ++ match headers s with
     | Some hs => map (fun kv => fst kv ++ lit ": " ++ snd kv) hs
     | None => []
     end.

(** [connect()]: [dial] is the connection [Deno.connect] or
    [Deno.connectTls] resolves to ([None] when it rejects) and [resp]
    the outcome of the read of the response.  The result is the state
    when [connect] returns or rejects; the receive loop it started is
    then waiting for its first read. *)
Definition connect (dial : option Conn) (resp : ReadOutcome) (s : Session)
  : Session :=
  let s := set_readyState CONNECTING s in
  let known := str_eqb (protocol (url s)) (lit "ws:")
               || str_eqb (protocol (url s)) (lit "wss:") in
  match (if known then dial else None) with
  | None => emit (Rejected InConnect) s
  | Some conn =>
      let key := generateSecWebSocketKey s in
      let s := advance 16 s in
      let request := request_lines key s ++ [crlf] in
      let s := fst (write (Some conn) (TextEncoder_encode (join request crlf)) s) in
      let validate (bytes : Uint8Array) :=
        let response := removelast (split (fst (read bytes)) crlf) in
        match check_lines key response [] with
        | None => emit (Rejected InConnect) s
        | Some checks =>
            let s :=
              if (length (checks_filter negb checks) =? 0)%nat
              then set_connection (Some conn) (set_readyState CONNECTED s)
              else set_readyState CLOSED s in
            let s :=
              match connection s with
              | None => emit (Rejected InListen) s
              | Some _ => s
              end in
            call_onReady s
        end in
      match resp with
      | ReadData bytes => validate bytes
      | ReadEnd => validate []
      | ReadInterrupted | ReadFailed => emit (Rejected InConnect) s
      end
  end.

(* ================================================================== *)
(** ** The wire format, as the frame data model describes it *)
(* ================================================================== *)

(** A frame read off the wire: FIN, opcode, mask flag, the masking key
    when the flag is set, the payload with the mask removed, and the
    number of bytes the frame occupies. *)
Record WireFrame := {
  w_fin : bool;
  w_opcode : Z;
  w_masked : bool;
  w_key : option MaskingKey;
  w_payload : Uint8Array;
  w_size : nat
}.

(** Bytes of the length extension announced by the 7-bit length. *)
Definition wire_ext (len7 : Z) : nat :=
  if len7 =? 126 then 2%nat else if len7 =? 127 then 8%nat else 0%nat.

(** Reading one frame from the start of [bs]; [None] when [bs] is
    shorter than the frame its header announces.  The extended length
    is big-endian, the masking key is present iff the mask bit is set,
    and the payload has exactly the announced number of bytes. *)
Definition wire_parse (bs : Uint8Array) : option WireFrame :=
  match bs with
  | b0 :: b1 :: rest =>
      let len7 := Z.land (b2z b1) 0x7F in
      let ext := wire_ext len7 in
      let masked := Z.testbit (b2z b1) 7 in
      if (length rest <? ext)%nat then None
      else
        let len :=
          match ext with
          | O => len7
          | _ => be_value (firstn ext rest)
          end in
        let rest := skipn ext rest in
        let finish (key : option MaskingKey) (keylen : nat) (rest : Uint8Array) :=
          if Z.of_nat (length rest) <? len then None
          else
            let raw := firstn (Z.to_nat len) rest in
            Some {| w_fin := Z.testbit (b2z b0) 7;
                    w_opcode := Z.land (b2z b0) 0xF;
                    w_masked := masked;
                    w_key := key;
                    w_payload :=
                      match key with
                      | Some k => xor_from 0 k raw
                      | None => raw
                      end;
                    w_size := (2 + ext + keylen + Z.to_nat len)%nat |} in
        if masked then
          match rest with
          | k0 :: k1 :: k2 :: k3 :: rest' =>
              finish (Some (k0, k1, k2, k3)) 4%nat rest'
          | _ => None
          end
        else finish None 0%nat rest
  | _ => None
  end.

(* ================================================================== *)
(** ** Sample values used by the examples *)
(* ================================================================== *)

Definition sample_url : URL :=
  {| protocol := lit "ws:"; hostname := lit "example.com"; port := [];
     pathname := lit "/chat"; origin := lit "ws://example.com" |}.

Definition sample_new_URL (_ : jsstring) : option URL := Some sample_url.

Definition sample_options : ConnectionOptions :=
  {| opt_url := lit "ws://example.com/chat"; opt_protocols := None;
     opt_headers := None; opt_extensions := None |}.

(** Random bytes that spell the nonce of the RFC 6455 example. *)
Definition sample_entropy (n : nat) : byte :=
  nth n (TextEncoder_encode (lit "the sample nonce")) x00.

(** A session in state [r] with transport [c] and every callback set. *)
Definition sample_session (r : ReadyState) (c : option Conn) : Session :=
  {| url := sample_url; protocols := None; headers := None;
     extensions := None; readyState := r; connection := c;
     onReady := true; onMessage := true; onError := true; onClose := true;
     events := []; tasks := []; entropy := sample_entropy;
     entropy_pos := 0 |}.

(** How many times [onClose] and [onMessage] ran in a trace, and how
    many writes and transport closes it holds. *)
Definition is_OnClose (e : Event) : bool :=
  match e with OnClose _ => true | _ => false end.
Definition is_OnMessage (e : Event) : bool :=
  match e with OnMessage _ => true | _ => false end.
Definition is_ConnWrite (e : Event) : bool :=
  match e with ConnWrite _ _ => true | _ => false end.
Definition is_ConnClose (e : Event) : bool :=
  match e with ConnClose _ => true | _ => false end.
Definition is_callback (e : Event) : bool :=
  match e with OnReady | OnMessage _ | OnClose _ => true | _ => false end.

Definition count (p : Event -> bool) (l : list Event) : nat :=
  length (filter p l).

(* ================================================================== *)
(** * Properties *)
(* ================================================================== *)

(** ** Bytes and 32-bit operators *)

Lemma b2z_range (b : byte) : 0 <= b2z b < 256.
Proof.
  unfold b2z. pose proof (Byte.to_N_bounded b) as H. lia.
Qed.

Lemma u8_b2z (b : byte) : u8 (b2z b) = b.
Proof.
  unfold u8. pose proof (b2z_range b) as H.
  rewrite Z.mod_small by exact H.
  unfold b2z. rewrite N2Z.id, Byte.of_to_N. reflexivity.
Qed.

Lemma b2z_u8 (z : Z) : 0 <= z < 256 -> b2z (u8 z) = z.
Proof.
  intros H. unfold u8. rewrite Z.mod_small by exact H.
  destruct (Byte.of_N (Z.to_N z)) as [b|] eqn:E.
  - apply Byte.to_of_N in E. unfold b2z. rewrite E. lia.
  - apply Byte.of_N_None_iff in E. lia.
Qed.

Lemma ToInt32_small (x : Z) : - 2 ^ 31 <= x < 2 ^ 31 -> ToInt32 x = x.
Proof.
  intros H. unfold ToInt32.
  destruct (Z_lt_le_dec x 0) as [Hn|Hp].
  - replace (x mod 2 ^ 32) with (x + 2 ^ 32).
    + destruct (2 ^ 31 <=? x + 2 ^ 32) eqn:E; [lia|].
      apply Z.leb_gt in E. lia.
    + apply Z.mod_unique with (q := -1); lia.
  - rewrite Z.mod_small by lia.
    destruct (2 ^ 31 <=? x) eqn:E; [|reflexivity].
    apply Z.leb_le in E. lia.
Qed.

Lemma ToInt32_byte (b : byte) : ToInt32 (b2z b) = b2z b.
Proof. apply ToInt32_small. pose proof (b2z_range b). lia. Qed.

(** The mask test of the receive loop reads bit 7 of the byte. *)
Lemma mask_bit_of_byte (b : byte) :
  (sar (band (b2z b) 0x80) 7 =? 0) = negb (Z.testbit (b2z b) 7).
Proof. destruct b; reflexivity. Qed.

(** The FIN test of the receive loop reads bit 7 as well. *)
Lemma fin_bit_of_byte (b : byte) :
  (sar (band (b2z b) 0x80) 7 =? 0) = negb (Z.testbit (b2z b) 7).
Proof. exact (mask_bit_of_byte b). Qed.

Lemma shl8_byte (b : byte) : bor (shl (b2z b) 8) 0 = 256 * b2z b.
Proof. destruct b; reflexivity. Qed.

(** ** Setters and the trace *)

Lemma events_emit (e : Event) (s : Session) :
  events (emit e s) = events s ++ [e].
Proof. reflexivity. Qed.

Lemma count_app (p : Event -> bool) (l1 l2 : list Event) :
  count p (l1 ++ l2) = (count p l1 + count p l2)%nat.
Proof. unfold count. rewrite filter_app, length_app. reflexivity. Qed.

(** ** send *)

(** C6.  In state Connecting, Closing or Closed, whatever the payload,
    and in state Connected or Open with the empty payload, [send]
    returns the session as it was: nothing is written to the transport
    (the trace is the same) and the ready state is unchanged. *)
Theorem send_discarded (s : Session) (payload : jsstring) :
  (readyState s = CONNECTING \/ readyState s = CLOSING
   \/ readyState s = CLOSED)
  \/ ((readyState s = CONNECTED \/ readyState s = OPEN) /\ payload = []) ->
  send payload s = s
  /\ events (send payload s) = events s
  /\ readyState (send payload s) = readyState s.
Proof.
  intros H.
  assert (E : send payload s = s).
  { unfold send.
    destruct H as [[H | [H | H]] | [[H | H] Hp]]; rewrite H;
      try reflexivity; subst payload; reflexivity. }
  rewrite E. repeat split.
Qed.

Lemma send_discarded_witness :
  (readyState (sample_session CLOSING None) = CLOSING
   /\ send (lit "hello") (sample_session CLOSING None)
      = sample_session CLOSING None)
  /\ (readyState (sample_session CONNECTED (Some 1%nat)) = CONNECTED
      /\ send [] (sample_session CONNECTED (Some 1%nat))
         = sample_session CONNECTED (Some 1%nat)).
Proof.
  split; split.
  - reflexivity.
  - apply (send_discarded (sample_session CLOSING None) (lit "hello")).
    left. right. left. reflexivity.
  - reflexivity.
  - apply (send_discarded (sample_session CONNECTED (Some 1%nat)) []).
    right. split; [left|]; reflexivity.
Defined.

(** In state Connected with a transport, a non-empty payload is
    written as one frame: the guard of [send] is not vacuous. *)
Lemma send_writes_when_connected (s : Session) (c : Conn) (u : Z)
    (rest : jsstring) :
  readyState s = CONNECTED -> connection s = Some c ->
  exists bytes,
    events (send (u :: rest) s) = events s ++ [ConnWrite c bytes]
    /\ readyState (send (u :: rest) s) = OPEN.
Proof.
  intros Hr Hc. unfold send. rewrite Hr. cbn [write].
  cbn [connection advance set_readyState]. rewrite Hc.
  eexists. split; reflexivity.
Qed.

(** ** close *)

(** The Close frame [close(errorType)] builds with masking key [k]. *)
Definition close_frame (errorType : ErrorTypes) (k : MaskingKey) : Uint8Array :=
  frame (FrameGenerator 0x8
           [u8 (band (sar errorType 8) 0xFF); u8 (band errorType 0xFF)]
           (Some true) k).

Lemma close_when_closing (s : Session) (e : ErrorTypes) :
  readyState s = CLOSING \/ readyState s = CLOSED -> close e s = s.
Proof.
  intros [H | H]; unfold close; rewrite H; reflexivity.
Qed.

Lemma close_when_active (s : Session) (e : ErrorTypes) (conn : Conn) :
  readyState s = CONNECTED \/ readyState s = OPEN
  \/ readyState s = CONNECTING ->
  connection s = Some conn ->
  close e s
  = set_connection None
      (set_tasks (tasks s ++ [CloseWritten conn])
         (emit (ConnWrite conn (close_frame e (next_key s)))
            (advance 4 (set_readyState CLOSING s)))).
Proof.
  intros H Hc. unfold close.
  destruct H as [H | [H | H]]; rewrite H;
    cbn [connection set_readyState]; rewrite Hc; reflexivity.
Qed.

(** What the first callbacks of the queue do: they leave the rest
    pending, add their transport closes to the trace, and touch neither
    the transport field nor the callback slots. *)
Lemma settle_n_prefix (ts : list Task) :
  forall (rest : list Task) (s : Session),
    tasks s = ts ++ rest ->
    tasks (settle_n (length ts) s) = rest
    /\ events (settle_n (length ts) s) = events s ++ closes_of ts
    /\ connection (settle_n (length ts) s) = connection s
    /\ onClose (settle_n (length ts) s) = onClose s.
Proof.
  induction ts as [|t ts IH]; intros rest s E; cbn [length settle_n app] in *.
  - repeat split; [exact E | cbn; symmetry; apply app_nil_r].
  - assert (Et : tasks (settle s) = ts ++ rest).
    { unfold settle. rewrite E. destruct t; reflexivity. }
    destruct (IH rest (settle s) Et) as (H1 & H2 & H3 & H4).
    repeat split.
    + exact H1.
    + rewrite H2. unfold settle. rewrite E.
      destruct t; cbn [app events set_readyState set_tasks emit closes_of flat_map].
      * reflexivity.
      * rewrite <- app_assoc. reflexivity.
    + rewrite H3. unfold settle. rewrite E. destruct t; reflexivity.
    + rewrite H4. unfold settle. rewrite E. destruct t; reflexivity.
Qed.

Lemma settle_all_last (ts : list Task) (t : Task) (s : Session) :
  tasks s = ts ++ [t] ->
  settle_all s = settle (settle_n (length ts) s)
  /\ tasks (settle_n (length ts) s) = [t].
Proof.
  intros E. unfold settle_all. rewrite E, length_app. cbn [length].
  replace (length ts + 1)%nat with (S (length ts)) by lia.
  split; [|apply (settle_n_prefix ts [t] s E)].
  clear E. revert s. induction ts as [|x ts IH]; intros s.
  - reflexivity.
  - cbn [length settle_n]. apply IH.
Qed.

Lemma count_closes_of (ts : list Task) : count is_OnClose (closes_of ts) = 0%nat.
Proof.
  induction ts as [|t ts IH]; [reflexivity|].
  destruct t; cbn [closes_of flat_map app] in *; [exact IH|].
  unfold count in *. cbn [filter is_OnClose]. exact IH.
Qed.

Lemma settle_all_done (s : Session) :
  tasks (settle_all s) = []
  /\ events (settle_all s) = events s ++ closes_of (tasks s).
Proof.
  unfold settle_all.
  destruct (settle_n_prefix (tasks s) [] s) as (H1 & H2 & _).
  - symmetry. apply app_nil_r.
  - split; assumption.
Qed.

Lemma close_without_transport (s : Session) (e : ErrorTypes) :
  readyState s = CONNECTED \/ readyState s = OPEN ->
  connection s = None ->
  close e s = set_readyState CLOSING s.
Proof.
  intros H Hc. unfold close.
  destruct H as [H | H]; rewrite H; cbn [connection set_readyState];
    rewrite Hc; reflexivity.
Qed.

(** A Connected session that holds no transport: a [close] overtook a
    [send] whose write then completed. *)
Definition overtaken_session : Session :=
  settle (close 1000 (send (lit "a") (sample_session CONNECTED (Some 1%nat)))).

(** C7, as stated, fails twice.  With a transport, the two calls write
    one Close frame and the cleanup closes the transport once, but
    [onClose] has run zero times, not once.  And a session can be
    Connected without a transport: there the two calls write no frame
    and queue no cleanup. *)
Lemma close_twice_not_as_stated :
  (count is_ConnWrite
     (events (settle (close 1000 (close 1000
        (sample_session CONNECTED (Some 1%nat)))))) = 1%nat
   /\ count is_ConnClose
        (events (settle (close 1000 (close 1000
           (sample_session CONNECTED (Some 1%nat)))))) = 1%nat
   /\ count is_OnClose
        (events (settle (close 1000 (close 1000
           (sample_session CONNECTED (Some 1%nat)))))) <> 1%nat)
  /\ (readyState overtaken_session = CONNECTED
      /\ connection overtaken_session = None
      /\ events (close 1000 (close 1000 overtaken_session))
         = events overtaken_session
      /\ tasks (close 1000 (close 1000 overtaken_session))
         = tasks overtaken_session).
Proof.
  split; [split; [|split] | split; [|split; [|split]]];
    vm_compute; first [reflexivity | discriminate].
Qed.

(** C7, amended.  In state Closing or Closed [close] returns the
    session as it was.  In state Connected or Open, a second call in
    succession changes nothing, and the session is left in Closing
    without a transport.  When it held a transport, the two calls
    write exactly one Close frame and queue exactly one cleanup behind
    the callbacks already pending; once the pending callbacks have run,
    whatever the earlier ones did, that cleanup has closed the
    transport once and the state is Closed, after which a further call
    again changes nothing.  When it held none, nothing is written or
    queued.  No step of this runs [onClose]. *)
Theorem close_twice (s : Session) (e1 e2 : ErrorTypes) :
  (readyState s = CLOSING \/ readyState s = CLOSED -> close e1 s = s)
  /\ (readyState s = CONNECTED \/ readyState s = OPEN ->
      let s2 := close e2 (close e1 s) in
      let done := settle_all s2 in
      s2 = close e1 s
      /\ readyState s2 = CLOSING
      /\ connection s2 = None
      /\ match connection s with
         | Some conn =>
             events s2
             = events s ++ [ConnWrite conn (close_frame e1 (next_key s))]
             /\ tasks s2 = tasks s ++ [CloseWritten conn]
             /\ events done
                = events s2 ++ closes_of (tasks s) ++ [ConnClose conn]
             /\ readyState done = CLOSED
             /\ close e2 done = done
         | None => events s2 = events s /\ tasks s2 = tasks s
         end
      /\ tasks done = []
      /\ count is_OnClose (events done) = count is_OnClose (events s)).
Proof.
  split; [apply close_when_closing|].
  intros Hr. cbv zeta.
  destruct (connection s) as [conn|] eqn:Hc.
  - assert (E : close e1 s
                = set_connection None
                    (set_tasks (tasks s ++ [CloseWritten conn])
                       (emit (ConnWrite conn (close_frame e1 (next_key s)))
                          (advance 4 (set_readyState CLOSING s))))).
    { apply close_when_active; [tauto | exact Hc]. }
    assert (E2 : close e2 (close e1 s) = close e1 s).
    { apply close_when_closing. left. rewrite E. reflexivity. }
    rewrite E2.
    assert (Et : tasks (close e1 s) = tasks s ++ [CloseWritten conn])
      by (rewrite E; reflexivity).
    assert (Ee : events (close e1 s)
                 = events s ++ [ConnWrite conn (close_frame e1 (next_key s))])
      by (rewrite E; reflexivity).
    destruct (settle_all_last _ _ _ Et) as (Ea & Hlast).
    destruct (settle_n_prefix (tasks s) [CloseWritten conn] _ Et)
      as (_ & Hev & _).
    assert (Hd : events (settle_all (close e1 s))
                 = events (close e1 s) ++ closes_of (tasks s) ++ [ConnClose conn]).
    { rewrite Ea. unfold settle at 1. rewrite Hlast.
      cbn [events set_readyState emit set_tasks]. rewrite Hev.
      rewrite <- app_assoc. reflexivity. }
    assert (Hs : readyState (settle_all (close e1 s)) = CLOSED).
    { rewrite Ea. unfold settle at 1. rewrite Hlast. reflexivity. }
    split; [reflexivity|]. split; [rewrite E; reflexivity|].
    split; [rewrite E; reflexivity|].
    split; [|split].
    + split; [exact Ee|]. split; [exact Et|]. split; [exact Hd|].
      split; [exact Hs|]. apply close_when_closing. right. exact Hs.
    + apply (settle_all_done (close e1 s)).
    + rewrite Hd, Ee. rewrite !count_app, count_closes_of.
      unfold count. cbn [filter is_OnClose length]. lia.
  - assert (E : close e1 s = set_readyState CLOSING s)
      by (apply close_without_transport; assumption).
    assert (E2 : close e2 (close e1 s) = close e1 s).
    { apply close_when_closing. left. rewrite E. reflexivity. }
    rewrite E2.
    split; [reflexivity|]. split; [rewrite E; reflexivity|].
    split; [rewrite E; exact Hc|].
    split; [rewrite E; split; reflexivity|].
    destruct (settle_all_done (close e1 s)) as (Ht & Hev).
    split; [exact Ht|].
    rewrite Hev, count_app, count_closes_of, E. cbn [events set_readyState]. lia.
Qed.

Lemma close_twice_witness :
  (readyState (sample_session CLOSED None) = CLOSED
   /\ close 1000 (sample_session CLOSED None) = sample_session CLOSED None)
  /\ (readyState (send (lit "a") (sample_session CONNECTED (Some 1%nat))) = OPEN
      /\ tasks (send (lit "a") (sample_session CONNECTED (Some 1%nat)))
         = [SendWritten]
      /\ close 1001
           (close 1000 (send (lit "a") (sample_session CONNECTED (Some 1%nat))))
         = close 1000 (send (lit "a") (sample_session CONNECTED (Some 1%nat)))
      /\ tasks (settle_all
                  (close 1001
                     (close 1000
                        (send (lit "a")
                           (sample_session CONNECTED (Some 1%nat)))))) = []).
Proof.
  split; [split | split; [|split]].
  - reflexivity.
  - apply (proj1 (close_twice (sample_session CLOSED None) 1000 1000)).
    right. reflexivity.
  - reflexivity.
  - reflexivity.
  - destruct (proj2 (close_twice
                       (send (lit "a") (sample_session CONNECTED (Some 1%nat)))
                       1000 1001) (or_intror eq_refl))
      as (H1 & _ & _ & _ & H2 & _).
    split; [exact H1 | exact H2].
Defined.

(** ** The constructor *)

(** C8, as stated, fails: the session the constructor returns is in
    state Closed, not Connecting. *)
Lemma constructed_is_not_connecting :
  exists s,
    constructor sample_new_URL sample_options sample_entropy = Some s
    /\ readyState s = CLOSED
    /\ readyState s <> CONNECTING.
Proof.
  eexists. split; [reflexivity|]. split; [reflexivity | discriminate].
Qed.

(** C8, amended.  Every session the constructor returns is in state
    Closed, with no transport; Connecting is what [connect] sets first
    (it is the state left behind when the dial fails). *)
Theorem constructed_closed (new_URL : jsstring -> option URL)
    (options : ConnectionOptions) (entropy0 : nat -> byte) (s : Session) :
  constructor new_URL options entropy0 = Some s ->
  readyState s = CLOSED
  /\ connection s = None
  /\ forall resp, readyState (connect None resp s) = CONNECTING.
Proof.
  unfold constructor. intros H.
  destruct (new_URL (opt_url options)) as [u|]; [|discriminate].
  destruct (negb (str_eqb (protocol u) (lit "ws:"))
            && negb (str_eqb (protocol u) (lit "wss:"))); [discriminate|].
  injection H as <-. repeat split.
  intros resp. unfold connect.
  match goal with
  | |- context [if ?c then None else None] => destruct c
  end; reflexivity.
Qed.

Lemma constructed_closed_witness :
  exists s,
    constructor sample_new_URL sample_options sample_entropy = Some s
    /\ readyState s = CLOSED.
Proof.
  eexists. split; [reflexivity|].
  eapply (constructed_closed sample_new_URL sample_options sample_entropy).
  reflexivity.
Defined.

(** ** handleFrame: Close frames *)

(** The status code [handleFrame] hands to [onClose]. *)
Definition close_code (data : Uint8Array) : Z :=
  bor (shl (int32_of (get data 0)) 8) (int32_of (get data 1)).

Lemma handleFrame_close (data : Uint8Array) (s : Session) :
  handleFrame 0x8 data s
  = (call_onClose (close_code data) (set_readyState CLOSED s), data).
Proof. reflexivity. Qed.

(** A Close frame with payload [0x03, 0xE8] reports code 1000. *)
Example close_code_1000 : close_code [x03; xe8] = 1000.
Proof. reflexivity. Qed.

(** C10, as stated, fails for a one-byte payload: the single byte is
    the high half of the code, so [0x03] is reported as 768, not 0. *)
Lemma close_one_byte_not_zero :
  events (fst (handleFrame 0x8 [x03] (sample_session CONNECTED (Some 1%nat))))
  = [OnClose 768]
  /\ 768 <> NONE.
Proof. split; [reflexivity | discriminate]. Qed.

(** C10, amended.  A Close frame whose payload has fewer than two
    bytes still sets the state to Closed and runs [onClose] (when set)
    once, without any write, queued task or call of [close]; the code
    is 0 for the empty payload and 256 times the byte for a one-byte
    payload. *)
Theorem close_short_payload (payload : Uint8Array) (s : Session) :
  (length payload < 2)%nat ->
  let code :=
    match payload with
    | [] => NONE
    | b :: _ => 256 * b2z b
    end in
  readyState (fst (handleFrame 0x8 payload s)) = CLOSED
  /\ events (fst (handleFrame 0x8 payload s))
     = events s ++ (if onClose s then [OnClose code] else [])
  /\ tasks (fst (handleFrame 0x8 payload s)) = tasks s
  /\ connection (fst (handleFrame 0x8 payload s)) = connection s.
Proof.
  intros Hlen code. rewrite handleFrame_close. cbn [fst].
  assert (Hc : close_code payload = code).
  { destruct payload as [|b [|b' t]]; cbn [length] in Hlen; try lia.
    - reflexivity.
    - unfold close_code, code. cbn [get Z.ltb Z.compare Z.to_nat nth_error
        Pos.to_nat Pos.iter_op Nat.add int32_of].
      apply shl8_byte. }
  rewrite Hc. unfold call_onClose. cbn [onClose set_readyState].
  destruct (onClose s); repeat split.
  cbn. rewrite app_nil_r. reflexivity.
Qed.

Lemma close_short_payload_witness :
  (length [x03] < 2)%nat
  /\ events (fst (handleFrame 0x8 [x03]
                    (sample_session CONNECTED (Some 1%nat))))
     = [OnClose (256 * b2z x03)].
Proof.
  split; [cbn; lia|].
  apply (close_short_payload [x03] (sample_session CONNECTED (Some 1%nat))).
  cbn. lia.
Defined.

(** ** The receive loop: masked frames *)

(** [close] runs no user callback: it only writes. *)
Lemma close_runs_no_callback (e : ErrorTypes) (s : Session) :
  filter is_callback (events (close e s)) = filter is_callback (events s).
Proof.
  unfold close.
  destruct (readyState s); try reflexivity;
    cbn [connection set_readyState]; destruct (connection s);
    try reflexivity;
    cbn [events set_connection set_tasks fst write emit advance];
    rewrite filter_app; cbn [filter is_callback]; apply app_nil_r.
Qed.

Lemma callbacks_same_messages (l1 l2 : list Event) :
  filter is_callback l1 = filter is_callback l2 ->
  filter is_OnMessage l1 = filter is_OnMessage l2.
Proof.
  intros H.
  assert (F : forall l, filter is_OnMessage l
                        = filter is_OnMessage (filter is_callback l)).
  { induction l as [|e l IH]; [reflexivity|].
    destruct e; cbn [filter is_callback is_OnMessage]; congruence. }
  rewrite (F l1), (F l2), H. reflexivity.
Qed.

(** The inner loop on a masked frame.  Whenever it decodes a frame (the
    offset is below its bound) whose second header byte has bit 7 set,
    the loop ends there with the result of [close(PROTOCOL_ERROR)],
    status 1002,
    whatever follows in the buffer: the pending fragments and the
    buffer are left as they were, and the messages handed to
    [onMessage] are exactly those from before the frame. *)
Theorem masked_frame_rejected (fuel : nat) (dataLength offset : Z)
    (buffer : Uint8Array) (mb : list Uint8Array) (s : Session) (b1 : byte) :
  offset < dataLength ->
  get buffer (offset + 1) = Some b1 ->
  Z.testbit (b2z b1) 7 = true ->
  frames_loop (S fuel) dataLength offset buffer mb s
  = Some {| rx_session := close PROTOCOL_ERROR s;
            messageBuffer := mb; rx_buffer := buffer |}
  /\ PROTOCOL_ERROR = 1002
  /\ filter is_OnMessage (events (close PROTOCOL_ERROR s))
     = filter is_OnMessage (events s).
Proof.
  intros Hlt Hget Hbit. split; [|split].
  - cbn [frames_loop].
    apply Z.ltb_lt in Hlt. rewrite Hlt.
    assert (Hm : (h_mask (decode_header buffer offset) =? 0) = false).
    { unfold decode_header.
      destruct (band (int32_of (get buffer (offset + 1))) 127 =? 126);
        [|destruct (band (int32_of (get buffer (offset + 1))) 127 =? 127)];
        cbn [h_mask]; rewrite Hget; cbn [int32_of];
        rewrite mask_bit_of_byte, Hbit; reflexivity. }
    rewrite Hm. reflexivity.
  - reflexivity.
  - apply callbacks_same_messages, close_runs_no_callback.
Qed.

Lemma masked_frame_rejected_witness :
  0 < 7
  /\ get [x81; x85; x48; x65; x6c; x6c; x6f] (0 + 1) = Some x85
  /\ Z.testbit (b2z x85) 7 = true
  /\ frames_loop 1 7 0 [x81; x85; x48; x65; x6c; x6c; x6f] []
       (sample_session CONNECTED (Some 1%nat))
     = Some {| rx_session :=
                 close PROTOCOL_ERROR (sample_session CONNECTED (Some 1%nat));
               messageBuffer := [];
               rx_buffer := [x81; x85; x48; x65; x6c; x6c; x6f] |}.
Proof.
  split; [lia|]. split; [reflexivity|]. split; [reflexivity|].
  apply (masked_frame_rejected 0 7 0 [x81; x85; x48; x65; x6c; x6c; x6f] []
           (sample_session CONNECTED (Some 1%nat)) x85);
    [lia | reflexivity | reflexivity].
Defined.

(** Without the mask bit the same bytes are delivered: the rejection is
    tied to the bit, not to the frame. *)
Example unmasked_frame_delivered :
  option_map (fun rx => events (rx_session rx))
    (frames_loop 2 7 0 [x81; x05; x48; x65; x6c; x6c; x6f] []
       (sample_session CONNECTED (Some 1%nat)))
  = Some [OnMessage {| data := StringData (lit "Hello"); type := TEXT |}].
Proof. reflexivity. Qed.

(** The masked "Hello" of RFC 6455, section 5.7. *)
Definition masked_hello : Uint8Array :=
  [x81; x85; x37; xfa; x21; x3d; x7f; x9f; x4d; x51; x58].

(** A final Text frame carrying six euro signs: 20 bytes that decode to
    8 code units. *)
Definition euro_frame : Uint8Array :=
  [x81; x12; xe2; x82; xac; xe2; x82; xac; xe2; x82; xac;
   xe2; x82; xac; xe2; x82; xac; xe2; x82; xac].

(** A masked frame whose seven bytes decode to white space only: a tab,
    a no-break space and four spaces. *)
Definition white_masked : Uint8Array :=
  [x09; xc2; xa0; x20; x20; x20; x20].

(** C4 on the code.  Alone in its read the masked frame is rejected:
    the one effect is a Close frame with status 1002.  Behind the text
    frame in the same read it is never examined: the bound of the inner
    loop is the length of the trimmed decoded text, 19 code units for
    these 31 bytes, and the frame starts at offset 20.  The text is
    delivered, nothing is written and the session stays Connected with
    its transport.  A masked frame that decodes to white space only is
    answered with status 1011, not 1002. *)
Theorem masked_frame_behind_text_ignored :
  let s := sample_session CONNECTED (Some 1%nat) in
  option_map events (listenForFrames 4 [ReadData masked_hello] s)
  = Some [ConnWrite 1%nat (close_frame PROTOCOL_ERROR (next_key s))]
  /\ Z.testbit (b2z (nth 21 (euro_frame ++ masked_hello) x00)) 7 = true
  /\ length (fst (read (euro_frame ++ masked_hello))) = 19%nat
  /\ (exists s',
        listenForFrames 4 [ReadData (euro_frame ++ masked_hello)] s = Some s'
        /\ events s'
           = [OnMessage {| data := StringData (repeat 8364 6);
                           type := TEXT |}]
        /\ readyState s' = CONNECTED
        /\ connection s' = Some 1%nat
        /\ tasks s' = [])
  /\ option_map events (listenForFrames 4 [ReadData white_masked] s)
     = Some [ConnWrite 1%nat (close_frame INTERNAL_ERROR (next_key s))].
Proof.
  cbv zeta. split; [vm_compute; reflexivity|].
  split; [reflexivity|]. split; [vm_compute; reflexivity|].
  split; [|vm_compute; reflexivity].
  eexists. split; [vm_compute; reflexivity|].
  split; [reflexivity|]. split; [reflexivity|]. split; reflexivity.
Qed.

(** ** FrameGenerator: the shape of the header *)

(** [payloadLenBytes] of the constructor, as a function of the length. *)
Definition payloadLenBytes (payloadLen : Z) : nat :=
  if payloadLen >? 125
  then if payloadLen <=? 65535 then 2%nat else 8%nat
  else 0%nat.

(** A length up to 125 stored without the mask flag: bit 7 is clear
    and the low seven bits are the length. *)
Lemma plain_length_byte (b : byte) :
  b2z b <= 125 ->
  Z.testbit (b2z (u8 (bor 0 (b2z b)))) 7 = false
  /\ Z.land (b2z (u8 (bor 0 (b2z b)))) 0x7F = b2z b.
Proof.
  destruct b; intros H;
    first [ split; reflexivity | exfalso; vm_compute in H; apply H; reflexivity ].
Qed.

(** The same with the mask flag: bit 7 is set. *)
Lemma masked_length_byte (b : byte) :
  b2z b <= 125 ->
  Z.testbit (b2z (u8 (bor 0x80 (b2z b)))) 7 = true
  /\ Z.land (b2z (u8 (bor 0x80 (b2z b)))) 0x7F = b2z b.
Proof.
  destruct b; intros H;
    first [ split; reflexivity | exfalso; vm_compute in H; apply H; reflexivity ].
Qed.

(** Header byte 0 for an opcode of four bits: FIN set, opcode kept. *)
Lemma opcode_byte (b : byte) :
  b2z b < 16 ->
  Z.testbit (b2z (u8 (bor 0x80 (b2z b)))) 7 = true
  /\ Z.land (b2z (u8 (bor 0x80 (b2z b)))) 0xF = b2z b
  /\ band (b2z (u8 (bor 0x80 (b2z b)))) 0x0f = b2z b
  /\ sar (band (b2z (u8 (bor 0x80 (b2z b)))) 0x80) 7 = 1.
Proof.
  destruct b; intros H;
    first [ repeat split; reflexivity
          | exfalso; vm_compute in H; discriminate H ].
Qed.

Lemma wire_ext_small (l : Z) : 0 <= l <= 125 -> wire_ext l = 0%nat.
Proof.
  intros H. unfold wire_ext.
  destruct (l =? 126) eqn:E1; [apply Z.eqb_eq in E1; lia|].
  destruct (l =? 127) eqn:E2; [apply Z.eqb_eq in E2; lia|].
  reflexivity.
Qed.

(** C9.  With the [masked] argument omitted, for every opcode, payload
    (in particular every non-empty one) and random key: the header has
    6 bytes plus the length extension and holds the masking key at
    bytes 2 to 5; bit 7 of the second header byte is 0 and its low seven
    bits announce the same length extension, so the header read as an
    unmasked one ends at byte 2 plus the extension; yet the frame is
    that longer header followed by the payload bytes unchanged, so the
    payload sits 4 bytes after the place its header announces. *)
Theorem omitted_mask_inconsistent (opcode : Z) (payload : Uint8Array)
    (rnd : MaskingKey) :
  let g := FrameGenerator opcode payload None rnd in
  let ext := payloadLenBytes (Z.of_nat (length payload)) in
  length (header_of g) = (6 + ext)%nat
  /\ firstn 4 (skipn 2 (header_of g)) = key_bytes rnd
  /\ (exists b1,
        nth_error (frame g) 1 = Some b1
        /\ Z.testbit (b2z b1) 7 = false
        /\ wire_ext (Z.land (b2z b1) 0x7F) = ext)
  /\ frame g = header_of g ++ payload
  /\ data_after g = payload
  /\ skipn (2 + ext + 4) (frame g) = payload.
Proof.
  intros g ext.
  destruct rnd as [[[k0 k1] k2] k3].
  unfold g, ext, FrameGenerator, payloadLenBytes.
  cbn [this_masked mask_flag].
  set (L := Z.of_nat (length payload)).
  assert (HL : 0 <= L) by (unfold L; lia).
  destruct (L >? 125) eqn:E1.
  - apply Z.gtb_lt in E1.
    assert (E1' : (L <=? 125) = false) by (apply Z.leb_gt; lia).
    rewrite E1'.
    destruct (L <=? 65535) eqn:E2;
      cbn [header_of frame data_after new_Uint8Array repeat Nat.add store
             set_from Nat.sub key_bytes app skipn length firstn store_len8];
      (split; [reflexivity|]); (split; [reflexivity|]);
      (split; [eexists; split; [reflexivity|split; reflexivity]|]);
      (split; [reflexivity|]); (split; [reflexivity|]); reflexivity.
  - assert (E1' : (L <=? 125) = true).
    { apply Z.leb_le. destruct (Z.gtb_spec L 125); [discriminate | lia]. }
    rewrite E1'. apply Z.leb_le in E1'.
    cbn [header_of frame data_after new_Uint8Array repeat Nat.add store
           set_from Nat.sub key_bytes app skipn length firstn].
    split; [reflexivity|]. split; [reflexivity|].
    split.
    { eexists. split; [reflexivity|].
      rewrite <- (b2z_u8 L) by lia.
      destruct (plain_length_byte (u8 L)) as [Hb Hl];
        [rewrite b2z_u8; lia|].
      split; [exact Hb|]. rewrite Hl. apply wire_ext_small.
      rewrite b2z_u8; lia. }
    split; [reflexivity|]. split; reflexivity.
Qed.


(** With three payload bytes: a nine-byte frame whose second byte says
    "unmasked, length 3" while the payload starts at byte 6. *)
Example omitted_mask_abc :
  frame (FrameGenerator 0x1 [x61; x62; x63] None (x01, x02, x03, x04))
  = [x81; x03; x01; x02; x03; x04; x61; x62; x63].
Proof. reflexivity. Qed.

(** ** Reassembly of fragmented messages *)

Lemma handleFrame_continuation (payload : Uint8Array) (s : Session) :
  handleFrame 0x0 payload s = (close INVALID_OPCODE s, payload).
Proof. reflexivity. Qed.

(** Frames given to the reassembly step one after the other, as
    (fin, opcode, payload). *)
Definition deliver_all (frames : list (Z * Z * Uint8Array)) (rx : Rx) : Rx :=
  fold_left
    (fun rx f =>
       let '(fin, opcode, payload) := f in
       deliver fin opcode payload 0 (rx_buffer rx) (messageBuffer rx)
         (rx_session rx))
    frames rx.

Lemma deliver_pending (opcode : Z) (payload : Uint8Array) (start : nat)
    (buffer : Uint8Array) (mb : list Uint8Array) (s : Session) :
  deliver 0 opcode payload start buffer mb s
  = {| rx_session := s; messageBuffer := mb ++ [payload];
       rx_buffer := buffer |}.
Proof. reflexivity. Qed.

Lemma deliver_final (fin opcode : Z) (payload : Uint8Array) (start : nat)
    (buffer : Uint8Array) (p : Uint8Array) (mb : list Uint8Array)
    (s : Session) :
  fin <> 0 ->
  deliver fin opcode payload start buffer (p :: mb) s
  = {| rx_session :=
         fst (handleFrame opcode
                (concatenateUint8Arrays ((p :: mb) ++ [payload])) s);
       messageBuffer := []; rx_buffer := buffer |}.
Proof.
  intros H. unfold deliver.
  destruct (fin =? 0) eqn:E; [apply Z.eqb_eq in E; contradiction|].
  reflexivity.
Qed.

(** A run of fragments is concatenated in arrival order, and what is
    dispatched carries the opcode of the frame that ends the run: the
    opcode [first] of the frame that started it is not kept anywhere. *)
Lemma run_dispatches_last_opcode (first last : Z) (p1 : Uint8Array)
    (conts : list Uint8Array) (pf : Uint8Array) (buffer : Uint8Array)
    (s : Session) :
  deliver_all
    ((0, first, p1) :: map (fun p => (0, 0, p)) conts ++ [(1, last, pf)])
    {| rx_session := s; messageBuffer := []; rx_buffer := buffer |}
  = {| rx_session :=
         fst (handleFrame last (p1 ++ concat conts ++ pf) s);
       messageBuffer := []; rx_buffer := buffer |}.
Proof.
  unfold deliver_all. cbn [fold_left rx_buffer messageBuffer rx_session].
  rewrite deliver_pending. cbn [app].
  assert (G : forall (mb : list Uint8Array),
             fold_left
               (fun rx f =>
                  let '(fin, opcode, payload) := f in
                  deliver fin opcode payload 0 (rx_buffer rx)
                    (messageBuffer rx) (rx_session rx))
               (map (fun p => (0, 0, p)) conts ++ [(1, last, pf)])
               {| rx_session := s; messageBuffer := p1 :: mb;
                  rx_buffer := buffer |}
             = {| rx_session :=
                    fst (handleFrame last
                           (concat (p1 :: mb) ++ concat conts ++ pf) s);
                  messageBuffer := []; rx_buffer := buffer |}).
  { induction conts as [|c conts IH]; intros mb.
    - cbn [map app fold_left rx_buffer messageBuffer rx_session].
      rewrite deliver_final by discriminate.
      unfold concatenateUint8Arrays. rewrite concat_app.
      cbn [concat]. rewrite !app_nil_r. reflexivity.
    - cbn [map app fold_left rx_buffer messageBuffer rx_session].
      rewrite deliver_pending. cbn [app].
      rewrite (IH (mb ++ [c])).
      do 3 f_equal. cbn [concat]. rewrite concat_app. cbn [concat].
      rewrite !app_nil_r, <- !app_assoc. reflexivity. }
  rewrite (G []). cbn [concat]. rewrite app_nil_r. reflexivity.
Qed.

(** So a run ended by a continuation frame (opcode 0), as the protocol
    has it, ends in [close(INVALID_OPCODE)] and hands nothing to
    [onMessage], whatever opcode started it. *)
Lemma run_ended_by_continuation (first : Z) (p1 : Uint8Array)
    (conts : list Uint8Array) (pf : Uint8Array) (buffer : Uint8Array)
    (s : Session) :
  rx_session
    (deliver_all
       ((0, first, p1) :: map (fun p => (0, 0, p)) conts ++ [(1, 0, pf)])
       {| rx_session := s; messageBuffer := []; rx_buffer := buffer |})
  = close INVALID_OPCODE s.
Proof.
  rewrite run_dispatches_last_opcode, handleFrame_continuation.
  reflexivity.
Qed.

(** The three frames [0x1 fin=0 "He"], [0x0 fin=0 "ll"], [0x0 fin=1 "o"]. *)
Definition hello_first : Uint8Array := [x01; x02; x48; x65].
Definition hello_second : Uint8Array := [x00; x02; x6c; x6c].
Definition hello_last : Uint8Array := [x80; x01; x6f].

(** C1 on the code: the three fragments of "Hello", received in one
    read or in three, are not handed to [onMessage].  The run is put
    together, but dispatched under the opcode of its last frame, a
    continuation: the session answers with a Close frame carrying
    INVALID_OPCODE (1003), drops the transport and enters Closing. *)
Theorem fragmented_hello_not_delivered :
  let s := sample_session CONNECTED (Some 1%nat) in
  let reply := [ConnWrite 1%nat (close_frame INVALID_OPCODE (next_key s))] in
  (exists s',
     listenForFrames 4
       [ReadData (hello_first ++ hello_second ++ hello_last)] s = Some s'
     /\ events s' = reply
     /\ count is_OnMessage (events s') = 0%nat
     /\ readyState s' = CLOSING /\ connection s' = None)
  /\ (exists s',
        listenForFrames 4
          [ReadData hello_first; ReadData hello_second; ReadData hello_last] s
        = Some s'
        /\ events s' = reply
        /\ count is_OnMessage (events s') = 0%nat
        /\ readyState s' = CLOSING /\ connection s' = None)
  /\ deliver_all
       [(0, 0x1, [x48; x65]); (0, 0x0, [x6c; x6c]); (1, 0x0, [x6f])]
       {| rx_session := s; messageBuffer := []; rx_buffer := [] |}
     = {| rx_session :=
            fst (handleFrame 0x0 [x48; x65; x6c; x6c; x6f] s);
          messageBuffer := []; rx_buffer := [] |}.
Proof.
  cbv zeta. split; [|split].
  - eexists. split; [vm_compute; reflexivity|]. repeat split.
  - eexists. split; [vm_compute; reflexivity|]. repeat split.
  - reflexivity.
Qed.

(** The same payload in a single Text frame is delivered as "Hello":
    only fragmented messages are lost. *)
Example single_frame_hello_delivered :
  option_map events
    (listenForFrames 4 [ReadData [x81; x05; x48; x65; x6c; x6c; x6f]]
       (sample_session CONNECTED (Some 1%nat)))
  = Some [OnMessage {| data := StringData (lit "Hello"); type := TEXT |}].
Proof. vm_compute. reflexivity. Qed.

(** ** The handshake checks *)

(** Every element the array holds is [true]. *)
Definition all_true (checks : Checks) : Prop :=
  forall b, In (Some b) checks -> b = true.

Lemma checks_set_true (checks : Checks) (i : nat) :
  all_true checks -> all_true (checks_set checks i true).
Proof.
  revert checks. induction i as [|i IH]; intros checks H b Hin.
  - destruct checks as [|h t]; cbn [checks_set] in Hin.
    + destruct Hin as [E | []]. congruence.
    + destruct Hin as [E | Hin]; [congruence|].
      apply H. right. exact Hin.
  - destruct checks as [|h t]; cbn [checks_set] in Hin.
    + destruct Hin as [E | Hin]; [discriminate|].
      apply (IH []); [intros ? []|exact Hin].
    + destruct Hin as [E | Hin].
      * apply H. left. exact E.
      * apply (IH t); [|exact Hin].
        intros b' Hb'. apply H. right. exact Hb'.
Qed.

Local Opaque checks_set.

Lemma check_line_true (key line : jsstring) (checks checks' : Checks) :
  all_true checks -> check_line key line checks = Some checks' ->
  all_true checks'.
Proof.
  unfold check_line. intros H.
  set (field0 := nth 0 (split line (lit ": ")) []).
  set (field1 := nth_error (split line (lit ": ")) 1).
  set (c1 := if startsWith field0 (lit "HTTP/1.1")
                && same_string (lit "101")
                     (nth_error (split field0 (lit " ")) 1)
             then checks_set checks 0 true else checks).
  assert (H1 : all_true c1).
  { unfold c1.
    match goal with |- all_true (if ?c then _ else _) => destruct c end;
      [apply checks_set_true|]; exact H. }
  set (c2 := if str_eqb field0 (lit "sec-websocket-accept")
                && same_string (accept_value key) field1
             then checks_set c1 1 true else c1).
  assert (H2 : all_true c2).
  { unfold c2.
    match goal with |- all_true (if ?c then _ else _) => destruct c end;
      [apply checks_set_true|]; exact H1. }
  clearbody c2. clear H1 c1. intros E.
  destruct (str_eqb field0 (lit "connection")).
  - destruct field1 as [v|]; [|discriminate E]. injection E as <-.
    match goal with |- all_true (if ?c then _ else _) => destruct c end;
      [apply checks_set_true|]; exact H2.
  - destruct (str_eqb field0 (lit "upgrade")).
    + destruct field1 as [v|]; [|discriminate E]. injection E as <-.
      match goal with |- all_true (if ?c then _ else _) => destruct c end;
        [apply checks_set_true|]; exact H2.
    + injection E as <-. exact H2.
Qed.

Local Transparent checks_set.

Lemma check_lines_true (key : jsstring) (response : list jsstring) :
  forall checks checks',
    all_true checks -> check_lines key response checks = Some checks' ->
    all_true checks'.
Proof.
  induction response as [|line rest IH]; intros checks checks' H E.
  - injection E as <-. exact H.
  - cbn [check_lines] in E. destruct line as [|c line].
    + eapply IH; eassumption.
    + destruct (check_line key (c :: line) checks) as [cs|] eqn:E1;
        [|discriminate].
      eapply IH; [|eassumption].
      eapply check_line_true; eassumption.
Qed.

Lemma filter_negb_all_true (checks : Checks) :
  all_true checks -> checks_filter negb checks = [].
Proof.
  induction checks as [|[b|] t IH]; intros H; cbn [checks_filter].
  - reflexivity.
  - rewrite (H b (or_introl eq_refl)). cbn [negb].
    apply IH. intros b' Hb'. apply H. right. exact Hb'.
  - apply IH. intros b' Hb'. apply H. right. exact Hb'.
Qed.

(** The array starts empty and only ever receives [true], and [filter]
    skips the holes: the test [checks.filter(c => !c).length === 0]
    holds for every response the loop gets through. *)
Lemma handshake_test_always_passes (key : jsstring)
    (response : list jsstring) (checks : Checks) :
  check_lines key response [] = Some checks ->
  (length (checks_filter negb checks) =? 0)%nat = true.
Proof.
  intros E. rewrite filter_negb_all_true; [reflexivity|].
  eapply check_lines_true; [|exact E]. intros b [].
Qed.

(** X5.  [connect] ends Connected, holding the dialled transport, for
    every response whose lines do not make the validation loop throw:
    the loop starts from an empty [checks] array, so the test on it
    passes whatever the lines say. *)
Lemma connect_accepts_every_response (conn : Conn) (bytes : Uint8Array)
    (s : Session) (checks : Checks) :
  protocol (url s) = lit "ws:" ->
  check_lines (generateSecWebSocketKey (set_readyState CONNECTING s))
    (removelast (split (fst (read bytes)) crlf)) [] = Some checks ->
  readyState (connect (Some conn) (ReadData bytes) s) = CONNECTED
  /\ connection (connect (Some conn) (ReadData bytes) s) = Some conn.
Proof.
  intros Hp E. unfold connect. cbv zeta.
  change (url (set_readyState CONNECTING s)) with (url s). rewrite Hp.
  change (str_eqb (lit "ws:") (lit "ws:")) with true. cbn [orb].
  rewrite E, (handshake_test_always_passes _ _ _ E).
  cbn [connection set_connection].
  unfold call_onReady.
  match goal with |- context [if ?c then _ else _] => destruct c end;
    split; reflexivity.
Qed.

(** The accept value of the RFC 6455 example. *)
Lemma accept_value_rfc_example :
  accept_value (lit "dGhlIHNhbXBsZSBub25jZQ==")
  = lit "s3pPLMBiTxaQ9kYGzzhZRbK+xOo=".
Proof. vm_compute. reflexivity. Qed.

(** A response that fails all four conditions: status 400, a wrong
    accept value, no [connection] and no [upgrade] header. *)
Definition refused_response : Uint8Array :=
  TextEncoder_encode
    (join [lit "HTTP/1.1 400 Bad Request";
           lit "sec-websocket-accept: AAAAAAAAAAAAAAAAAAAAAAAAAAA=";
           lit "content-length: 0"; []; []] crlf).

(** The response of the RFC example, with lower-case header names. *)
Definition accepted_response : Uint8Array :=
  TextEncoder_encode
    (join [lit "HTTP/1.1 101 Switching Protocols";
           lit "upgrade: websocket";
           lit "connection: Upgrade";
           lit "sec-websocket-accept: s3pPLMBiTxaQ9kYGzzhZRbK+xOo=";
           lit "server: sample"; []; []] crlf).

(** C2 on the code: with the client key of the RFC example the accept
    value computed is the expected one, and a response that satisfies
    the four conditions is accepted; but a response with status 400,
    a wrong accept value and neither header is accepted too: [connect]
    ends Connected and keeps the transport. *)
Theorem handshake_accepts_refused_response :
  let s := sample_session CLOSED None in
  generateSecWebSocketKey (set_readyState CONNECTING s)
  = lit "dGhlIHNhbXBsZSBub25jZQ=="
  /\ accept_value (lit "dGhlIHNhbXBsZSBub25jZQ==")
     = lit "s3pPLMBiTxaQ9kYGzzhZRbK+xOo="
  /\ readyState (connect (Some 1%nat) (ReadData accepted_response) s)
     = CONNECTED
  /\ check_lines (lit "dGhlIHNhbXBsZSBub25jZQ==")
       (removelast (split (fst (read refused_response)) crlf)) []
     = Some []
  /\ readyState (connect (Some 1%nat) (ReadData refused_response) s)
     = CONNECTED
  /\ connection (connect (Some 1%nat) (ReadData refused_response) s)
     = Some 1%nat.
Proof.
  cbv zeta. repeat split; vm_compute; reflexivity.
Qed.

(** The earlier version of the class started from
    [checks = [false, false, false, false]]: with that array the same
    loop and the same test refuse the response. *)
Lemma four_false_entries_refuse :
  option_map (fun checks => (length (checks_filter negb checks) =? 0)%nat)
    (check_lines (lit "dGhlIHNhbXBsZSBub25jZQ==")
       (removelast (split (fst (read refused_response)) crlf))
       [Some false; Some false; Some false; Some false])
  = Some false.
Proof. vm_compute. reflexivity. Qed.

(** What the loop records for the response of the RFC example: the
    status line, [upgrade], [connection] and the accept value. *)
Example accepted_response_checks :
  check_lines (lit "dGhlIHNhbXBsZSBub25jZQ==")
    (removelast (split (fst (read accepted_response)) crlf)) []
  = Some [Some true; Some true; Some true; Some true].
Proof. vm_compute. reflexivity. Qed.

(** ** Masking *)

Lemma lxor_byte_range (a k : Z) :
  0 <= a < 256 -> 0 <= k < 256 -> 0 <= Z.lxor a k < 256.
Proof.
  intros Ha Hk. split.
  - apply Z.lxor_nonneg. lia.
  - destruct (Z.eq_dec (Z.lxor a k) 0) as [E|E]; [lia|].
    assert (Hpos : 0 < Z.lxor a k).
    { assert (0 <= Z.lxor a k) by (apply Z.lxor_nonneg; lia). lia. }
    change 256 with (2 ^ 8). apply Z.log2_lt_pow2; [exact Hpos|].
    pose proof (Z.log2_lxor a k ltac:(lia) ltac:(lia)) as Hl.
    assert (La : Z.log2 a < 8).
    { destruct (Z.eq_dec a 0) as [->|]; [reflexivity|].
      apply Z.log2_lt_pow2; lia. }
    assert (Lk : Z.log2 k < 8).
    { destruct (Z.eq_dec k 0) as [->|]; [reflexivity|].
      apply Z.log2_lt_pow2; lia. }
    lia.
Qed.

(** One byte masked twice with the same key byte is itself. *)
Lemma xor_byte_twice (a k : byte) :
  u8 (bxor (b2z (u8 (bxor (b2z a) (b2z k)))) (b2z k)) = a.
Proof.
  unfold bxor. rewrite !ToInt32_byte.
  pose proof (lxor_byte_range _ _ (b2z_range a) (b2z_range k)) as Hr.
  rewrite (b2z_u8 _ Hr).
  rewrite Z.lxor_assoc, Z.lxor_nilpotent, Z.lxor_0_r.
  apply u8_b2z.
Qed.

(** Masking round trip: XOR with the key is its own inverse. *)
Lemma xor_from_twice (k : MaskingKey) (payload : Uint8Array) (i : nat) :
  xor_from i k (xor_from i k payload) = payload.
Proof.
  revert i. induction payload as [|b t IH]; intros i; cbn [xor_from].
  - reflexivity.
  - rewrite xor_byte_twice, IH. reflexivity.
Qed.

Lemma xor_from_length (k : MaskingKey) (payload : Uint8Array) (i : nat) :
  length (xor_from i k payload) = length payload.
Proof.
  revert i. induction payload as [|b t IH]; intros i; cbn [xor_from length].
  - reflexivity.
  - rewrite IH. reflexivity.
Qed.

(** ** Masked frames on the wire *)

(** A masked frame with a payload of at most 125 bytes. *)
Lemma masked_small_frame (opcode : Z) (payload : Uint8Array)
    (rnd : MaskingKey) :
  Z.of_nat (length payload) <= 125 ->
  FrameGenerator opcode payload (Some true) rnd
  = {| frame :=
         [u8 (bor 0x80 opcode); u8 (bor 0x80 (Z.of_nat (length payload)))]
         ++ key_bytes rnd ++ xor_from 0 rnd payload;
       header_of :=
         [u8 (bor 0x80 opcode); u8 (bor 0x80 (Z.of_nat (length payload)))]
         ++ key_bytes rnd;
       data_after := xor_from 0 rnd payload |}.
Proof.
  intros H. destruct rnd as [[[k0 k1] k2] k3].
  unfold FrameGenerator. cbn [this_masked mask_flag].
  assert (E1 : (Z.of_nat (length payload) >? 125) = false).
  { destruct (Z.gtb_spec (Z.of_nat (length payload)) 125); [lia|reflexivity]. }
  assert (E2 : (Z.of_nat (length payload) <=? 125) = true)
    by (apply Z.leb_le; exact H).
  rewrite E1, E2. reflexivity.
Qed.

(** Read off the wire, such a frame is a final, masked frame with the
    opcode, key and payload it was built from. *)
Lemma masked_small_frame_on_wire (opcode : Z) (payload : Uint8Array)
    (rnd : MaskingKey) :
  0 <= opcode < 16 ->
  Z.of_nat (length payload) <= 125 ->
  wire_parse (frame (FrameGenerator opcode payload (Some true) rnd))
  = Some {| w_fin := true; w_opcode := opcode; w_masked := true;
            w_key := Some rnd; w_payload := payload;
            w_size := (6 + length payload)%nat |}.
Proof.
  intros Ho Hl. rewrite masked_small_frame by exact Hl.
  destruct rnd as [[[k0 k1] k2] k3].
  cbn [frame key_bytes app wire_parse].
  set (L := Z.of_nat (length payload)) in *.
  assert (HL : 0 <= L) by (unfold L; lia).
  destruct (masked_length_byte (u8 L)) as [Hb Hlen];
    [rewrite b2z_u8; lia|].
  rewrite (b2z_u8 L) in Hb, Hlen by lia.
  destruct (opcode_byte (u8 opcode)) as [Hf [Hop _]];
    [rewrite b2z_u8; lia|].
  rewrite (b2z_u8 opcode) in Hf, Hop by lia.
  rewrite Hlen, Hb, Hf, Hop.
  rewrite (wire_ext_small L) by lia.
  cbn [Nat.ltb Nat.leb length skipn firstn Nat.add].
  rewrite xor_from_length.
  fold L.
  destruct (L <? L) eqn:E; [apply Z.ltb_lt in E; lia|].
  unfold L at 1 2. rewrite Nat2Z.id.
  rewrite <- (xor_from_length (k0, k1, k2, k3) payload 0) at 1.
  rewrite firstn_all, xor_from_twice.
  reflexivity.
Qed.

(** ** Pings *)

Lemma handleFrame_ping (payload : Uint8Array) (s : Session) (c : Conn) :
  connection s = Some c ->
  handleFrame 0x9 payload s
  = (emit (ConnWrite c
             (frame (FrameGenerator 0xA payload (Some true) (next_key s))))
       (advance 4 s),
     data_after (FrameGenerator 0xA payload (Some true) (next_key s))).
Proof.
  intros H. unfold handleFrame. cbn [Z.eqb].
  cbn [connection advance]. rewrite H. reflexivity.
Qed.

(** X3.  A Ping whose payload has at most 125 bytes (as control frames have)
    is answered by exactly one write; read off the wire, the bytes
    written are one final masked Pong frame whose unmasked payload is
    the ping's; no callback runs and the ready state stays. *)
Lemma ping_answered_small (payload : Uint8Array) (s : Session) (c : Conn) :
  Z.of_nat (length payload) <= 125 ->
  connection s = Some c ->
  exists bytes,
    events (fst (handleFrame 0x9 payload s)) = events s ++ [ConnWrite c bytes]
    /\ wire_parse bytes
       = Some {| w_fin := true; w_opcode := 0xA; w_masked := true;
                 w_key := Some (next_key s); w_payload := payload;
                 w_size := (6 + length payload)%nat |}
    /\ filter is_callback (events (fst (handleFrame 0x9 payload s)))
       = filter is_callback (events s)
    /\ readyState (fst (handleFrame 0x9 payload s)) = readyState s.
Proof.
  intros Hl Hc. rewrite (handleFrame_ping _ _ _ Hc). cbn [fst].
  eexists. split; [reflexivity|]. split.
  - apply masked_small_frame_on_wire; [lia | exact Hl].
  - split; [|reflexivity].
    cbn [events emit advance]. rewrite filter_app.
    cbn [filter is_callback]. apply app_nil_r.
Qed.

Example ping_abc_answered :
  events (fst (handleFrame 0x9 [x61; x62; x63]
                 (sample_session CONNECTED (Some 1%nat))))
  = [ConnWrite 1%nat [x8a; x83; x74; x68; x65; x20; x15; x0a; x06]]
  /\ option_map w_payload
       (wire_parse [x8a; x83; x74; x68; x65; x20; x15; x0a; x06])
     = Some [x61; x62; x63].
Proof. split; reflexivity. Qed.

(** A masked frame with a payload of 126 to 65535 bytes: the key is
    stored at header bytes 2 to 5, over the two length bytes, and the
    last two bytes of the header stay zero. *)
Lemma masked_medium_frame (opcode : Z) (payload : Uint8Array)
    (rnd : MaskingKey) :
  125 < Z.of_nat (length payload) <= 65535 ->
  FrameGenerator opcode payload (Some true) rnd
  = {| frame :=
         [u8 (bor 0x80 opcode); xfe] ++ key_bytes rnd ++ [x00; x00]
         ++ xor_from 0 rnd payload;
       header_of :=
         [u8 (bor 0x80 opcode); xfe] ++ key_bytes rnd ++ [x00; x00];
       data_after := xor_from 0 rnd payload |}.
Proof.
  intros H. destruct rnd as [[[k0 k1] k2] k3].
  unfold FrameGenerator. cbn [this_masked mask_flag].
  assert (E1 : (Z.of_nat (length payload) >? 125) = true).
  { destruct (Z.gtb_spec (Z.of_nat (length payload)) 125); [reflexivity|lia]. }
  assert (E2 : (Z.of_nat (length payload) <=? 125) = false)
    by (apply Z.leb_gt; lia).
  assert (E3 : (Z.of_nat (length payload) <=? 65535) = true)
    by (apply Z.leb_le; lia).
  rewrite E1, E2, E3. reflexivity.
Qed.

(** C5 on the code: a Ping with a payload of 126 bytes is answered by
    one write, but not of a Pong frame carrying that payload.  The
    masking key lies over the two bytes of the extended length: the
    header announces 0x7468 = 29800 payload bytes, the key a reader
    takes is the rest of the real key followed by two zero bytes, and
    the 134 bytes written are not even a whole frame. *)
Theorem long_ping_answered_by_broken_pong :
  let s := sample_session CONNECTED (Some 1%nat) in
  let ping := repeat x61 126 in
  exists bytes,
    events (fst (handleFrame 0x9 ping s)) = [ConnWrite 1%nat bytes]
    /\ next_key s = (x74, x68, x65, x20)
    /\ firstn 8 bytes = [x8a; xfe; x74; x68; x65; x20; x00; x00]
    /\ length bytes = 134%nat
    /\ wire_parse bytes = None
    /\ wire_parse
         ([x8a; xfe; x00; x7e; x74; x68; x65; x20]
          ++ xor_from 0 (x74, x68, x65, x20) ping)
       = Some {| w_fin := true; w_opcode := 0xA; w_masked := true;
                 w_key := Some (x74, x68, x65, x20); w_payload := ping;
                 w_size := 134 |}.
Proof.
  cbv zeta. eexists. split; [reflexivity|].
  repeat split; vm_compute; reflexivity.
Qed.


(** ** The 64-bit length field as the encoder writes it *)

(** C3 on the code, at a payload of 65536 bytes with [masked = false].
    The eight length bytes are not the big-endian 64-bit length: the
    shifts [payloadLen >> ((7 - i) * 8)] take their count modulo 32, so
    the low 32 bits are written twice.  Read as the big-endian number
    they are announced to be, the bytes say 2^48 + 65536, and the
    65546 bytes of the frame are not a whole frame to a receiver. *)
Theorem long_frame_length_not_big_endian :
  let g := FrameGenerator 0x2 (repeat x61 (Z.to_nat 65536)) (Some false)
             (x00, x00, x00, x00) in
  header_of g = [x82; x7f; x00; x01; x00; x00; x00; x01; x00; x00]
  /\ be_value (skipn 2 (header_of g)) = 2 ^ 48 + 65536
  /\ Z.of_nat (length (frame g)) = 65546
  /\ wire_parse (frame g) = None.
Proof.
  cbv zeta. split; [vm_compute; reflexivity|].
  split; [vm_compute; reflexivity|].
  split; [vm_compute; reflexivity|].
  vm_compute. reflexivity.
Qed.

(* ================================================================== *)
(** * Further properties of the code *)
(* ================================================================== *)

(** ** Reading a buffer behind a prefix *)

Lemma get_behind (pre l : Uint8Array) (i : Z) :
  0 <= i -> get (pre ++ l) (Z.of_nat (length pre) + i) = get l i.
Proof.
  intros Hi. unfold get.
  destruct (Z.of_nat (length pre) + i <? 0) eqn:E1;
    [apply Z.ltb_lt in E1; lia|].
  destruct (i <? 0) eqn:E2; [apply Z.ltb_lt in E2; lia|].
  rewrite nth_error_app2 by lia.
  f_equal. lia.
Qed.

Lemma get_behind_0 (pre l : Uint8Array) :
  get (pre ++ l) (Z.of_nat (length pre)) = get l 0.
Proof.
  rewrite <- (get_behind pre l 0) by lia. f_equal. lia.
Qed.

Lemma longPayloadLen_behind (pre l : Uint8Array) (o : Z) (n i : nat) (acc : Z) :
  0 <= o ->
  longPayloadLen (pre ++ l) (Z.of_nat (length pre) + o) i n acc
  = longPayloadLen l o i n acc.
Proof.
  intros Ho. revert i acc.
  induction n as [|n IH]; intros i acc; cbn [longPayloadLen].
  - reflexivity.
  - rewrite <- Z.add_assoc, get_behind by lia. apply IH.
Qed.

Lemma subarray_behind (pre l : Uint8Array) (a b : Z) :
  0 <= a -> 0 <= b ->
  subarray (pre ++ l) (Z.of_nat (length pre) + a) (Z.of_nat (length pre) + b)
  = subarray l a b.
Proof.
  intros Ha Hb. unfold subarray, rel_index. rewrite length_app.
  destruct (Z.of_nat (length pre) + a <? 0) eqn:E1;
    [apply Z.ltb_lt in E1; lia|].
  destruct (Z.of_nat (length pre) + b <? 0) eqn:E2;
    [apply Z.ltb_lt in E2; lia|].
  destruct (a <? 0) eqn:E3; [apply Z.ltb_lt in E3; lia|].
  destruct (b <? 0) eqn:E4; [apply Z.ltb_lt in E4; lia|].
  set (n := length pre). set (m := length l).
  replace (Z.min (Z.of_nat n + a) (Z.of_nat (n + m)))
    with (Z.of_nat n + Z.min a (Z.of_nat m)) by lia.
  replace (Z.min (Z.of_nat n + b) (Z.of_nat (n + m)))
    with (Z.of_nat n + Z.min b (Z.of_nat m)) by lia.
  replace (Z.of_nat n + Z.min b (Z.of_nat m)
           - (Z.of_nat n + Z.min a (Z.of_nat m)))
    with (Z.min b (Z.of_nat m) - Z.min a (Z.of_nat m)) by lia.
  f_equal.
  replace (Z.to_nat (Z.of_nat n + Z.min a (Z.of_nat m)))
    with (n + Z.to_nat (Z.min a (Z.of_nat m)))%nat by lia.
  unfold n. rewrite skipn_app, skipn_all2 by lia.
  replace (length pre + Z.to_nat (Z.min a (Z.of_nat m)) - length pre)%nat
    with (Z.to_nat (Z.min a (Z.of_nat m))) by lia.
  reflexivity.
Qed.

(** The header read at the end of a prefix is the header read at the
    start of what follows, with the payload start moved along. *)
Lemma decode_header_behind (pre l : Uint8Array) :
  decode_header (pre ++ l) (Z.of_nat (length pre))
  = let h := decode_header l 0 in
    {| h_fin := h_fin h; h_opcode := h_opcode h; h_mask := h_mask h;
       h_payloadLen := h_payloadLen h;
       h_start := Z.of_nat (length pre) + h_start h |}.
Proof.
  unfold decode_header.
  rewrite get_behind_0.
  rewrite !(get_behind pre l 1) by lia.
  change (0 + 1) with 1.
  destruct (band (int32_of (get l 1)) 127 =? 126).
  - rewrite <- !Z.add_assoc. rewrite !get_behind by lia.
    cbn [h_fin h_opcode h_mask h_payloadLen h_start].
    f_equal.
  - destruct (band (int32_of (get l 1)) 127 =? 127).
    + rewrite longPayloadLen_behind by lia.
      cbn [h_fin h_opcode h_mask h_payloadLen h_start].
      f_equal. lia.
    + cbn [h_fin h_opcode h_mask h_payloadLen h_start]. f_equal.
Qed.


(** ** 32-bit arithmetic of the length fields *)

Lemma ToInt32_range (x : Z) : - 2 ^ 31 <= ToInt32 x < 2 ^ 31.
Proof.
  unfold ToInt32.
  pose proof (Z.mod_pos_bound x (2 ^ 32) ltac:(lia)) as H.
  destruct (2 ^ 31 <=? x mod 2 ^ 32) eqn:E.
  - apply Z.leb_le in E. lia.
  - apply Z.leb_gt in E. lia.
Qed.

Lemma ToInt32_congr (x y : Z) :
  x mod 2 ^ 32 = y mod 2 ^ 32 -> ToInt32 x = ToInt32 y.
Proof. intros H. unfold ToInt32. rewrite H. reflexivity. Qed.

Lemma ToInt32_mod (x : Z) : ToInt32 x mod 2 ^ 32 = x mod 2 ^ 32.
Proof.
  unfold ToInt32.
  pose proof (Z.mod_pos_bound x (2 ^ 32) ltac:(lia)) as H.
  destruct (2 ^ 31 <=? x mod 2 ^ 32).
  - rewrite <- (Z.mod_add (x mod 2 ^ 32 - 2 ^ 32) 1 (2 ^ 32)) by lia.
    replace (x mod 2 ^ 32 - 2 ^ 32 + 1 * 2 ^ 32) with (x mod 2 ^ 32) by lia.
    apply Z.mod_mod. lia.
  - apply Z.mod_mod. lia.
Qed.

Lemma ToInt32_idem (x : Z) : ToInt32 (ToInt32 x) = ToInt32 x.
Proof. apply ToInt32_small, ToInt32_range. Qed.

Lemma land_high_low (a b : Z) : 0 <= b < 256 -> Z.land (a * 256) b = 0.
Proof.
  intros Hb. apply Z.bits_inj'. intros n Hn.
  rewrite Z.land_spec, Z.bits_0.
  change 256 with (2 ^ 8). rewrite <- Z.shiftl_mul_pow2 by lia.
  destruct (Z_lt_le_dec n 8) as [Hlt|Hge].
  - rewrite Z.shiftl_spec_low by lia. reflexivity.
  - replace (Z.testbit b n) with false; [apply andb_false_r|].
    symmetry. destruct (Z.eq_dec b 0) as [->|Hnz]; [apply Z.bits_0|].
    apply Z.bits_above_log2; [lia|].
    assert (Z.log2 b < 8) by (apply Z.log2_lt_pow2; lia). lia.
Qed.

Lemma lor_high_low (a b : Z) :
  0 <= b < 256 -> Z.lor (a * 256) b = a * 256 + b.
Proof.
  intros Hb. pose proof (land_high_low a b Hb) as Hz.
  rewrite <- Z.lxor_lor by exact Hz.
  symmetry. apply Z.add_nocarry_lxor. exact Hz.
Qed.

(** One turn of [x = (x << 8) | byte] is, modulo 2^32, [x * 256 + byte]. *)
Lemma shift_in_byte (acc b : Z) :
  0 <= b < 256 -> bor (shl acc 8) b = ToInt32 (acc * 256 + b).
Proof.
  intros Hb. unfold bor, shl. change (8 mod 32) with 8.
  rewrite Z.shiftl_mul_pow2 by lia. change (2 ^ 8) with 256.
  rewrite ToInt32_idem, (ToInt32_small b) by lia.
  set (x := ToInt32 (ToInt32 acc * 256)).
  pose proof (ToInt32_range (ToInt32 acc * 256)) as Hx. fold x in Hx.
  assert (Hxm : x mod 2 ^ 32 = (acc * 256) mod 2 ^ 32).
  { unfold x. rewrite ToInt32_mod.
    rewrite <- Z.mul_mod_idemp_l by lia. rewrite ToInt32_mod.
    rewrite Z.mul_mod_idemp_l by lia. reflexivity. }
  assert (Hdiv : x mod 256 = 0).
  { assert (E : x mod 256 = (x mod 2 ^ 32) mod 256).
    { change (2 ^ 32) with (256 * 16777216).
      rewrite Z.rem_mul_r by lia.
      rewrite Z.mul_comm, Z.mod_add by lia. rewrite Z.mod_mod by lia.
      reflexivity. }
    rewrite E, Hxm.
    change (2 ^ 32) with (256 * 16777216).
    rewrite Z.rem_mul_r by lia.
    rewrite (Z.mul_comm 256), Z.mod_add by lia. rewrite Z.mod_mod by lia.
    apply Z.mod_mul. lia. }
  assert (Hq : x = x / 256 * 256).
  { pose proof (Z.div_mod x 256 ltac:(lia)). lia. }
  rewrite Hq at 1. rewrite lor_high_low by exact Hb. rewrite <- Hq.
  symmetry.
  rewrite <- (ToInt32_small (x + b)).
  - apply ToInt32_congr.
    rewrite <- Z.add_mod_idemp_l by lia. rewrite <- Hxm.
    rewrite Z.add_mod_idemp_l by lia. reflexivity.
  - assert (x <= 2 ^ 31 - 256).
    { assert (x / 256 < 2 ^ 31 / 256).
      { apply Z.div_lt_upper_bound; [lia|].
        change (256 * (2 ^ 31 / 256)) with (2 ^ 31). lia. }
      change (2 ^ 31 / 256) with 8388608 in *.
      change (2 ^ 31) with 2147483648. lia. }
    lia.
Qed.

Lemma int32_of_range (o : option byte) : 0 <= int32_of o < 256.
Proof. destruct o as [b|]; cbn [int32_of]; [apply b2z_range | lia]. Qed.

(** The byte values the length loop reads, most significant first. *)
Definition length_bytes (buffer : Uint8Array) (offset : Z) (i n : nat)
  : list Z :=
  map (fun j => int32_of (get buffer (offset + Z.of_nat j))) (seq i n).

Definition be_number (acc : Z) (digits : list Z) : Z :=
  fold_left (fun a d => a * 256 + d) digits acc.

Lemma longPayloadLen_value (buffer : Uint8Array) (offset : Z) (n i : nat)
    (acc : Z) :
  ToInt32 (longPayloadLen buffer offset i n (ToInt32 acc))
  = ToInt32 (be_number acc (length_bytes buffer offset i n))
  /\ (n <> O ->
      longPayloadLen buffer offset i n (ToInt32 acc)
      = ToInt32 (be_number acc (length_bytes buffer offset i n))).
Proof.
  revert i acc. induction n as [|n IH]; intros i acc.
  - split; [|congruence]. cbn. apply ToInt32_idem.
  - cbn [longPayloadLen length_bytes seq map be_number fold_left].
    rewrite shift_in_byte by apply int32_of_range.
    set (d := int32_of (get buffer (offset + Z.of_nat i))).
    assert (E : ToInt32 (ToInt32 acc * 256 + d) = ToInt32 (acc * 256 + d)).
    { apply ToInt32_congr.
      rewrite <- Z.add_mod_idemp_l, <- Z.mul_mod_idemp_l by lia.
      rewrite ToInt32_mod.
      rewrite Z.mul_mod_idemp_l, Z.add_mod_idemp_l by lia. reflexivity. }
    rewrite E.
    destruct (IH (S i) (acc * 256 + d)) as [IH1 IH2].
    destruct n as [|n].
    + split; [|intros _]; cbn; rewrite ?ToInt32_idem; reflexivity.
    + specialize (IH2 ltac:(discriminate)).
      unfold length_bytes, be_number in IH2 |- *.
      rewrite IH2. split; [apply ToInt32_idem | intros _; reflexivity].
Qed.

(** The 64-bit length field as the receive loop reads it: the first
    four of its eight bytes have no effect, the last four are read as
    one signed 32-bit number. *)
Lemma longPayloadLen_low_int32 (buffer : Uint8Array) (offset : Z) :
  let v i := int32_of (get buffer (offset + i)) in
  longPayloadLen buffer offset 0 8 0
  = ToInt32 (((v 4 * 256 + v 5) * 256 + v 6) * 256 + v 7).
Proof.
  intros v.
  destruct (longPayloadLen_value buffer offset 8 0 0) as [_ H].
  change (ToInt32 0) with 0 in H. rewrite H by discriminate.
  apply ToInt32_congr.
  cbn [length_bytes seq map be_number fold_left Z.of_nat Pos.of_succ_nat
         Pos.succ].
  fold (v 0) (v 1) (v 2) (v 3) (v 4) (v 5) (v 6) (v 7).
  replace ((((((((0 * 256 + v 0) * 256 + v 1) * 256 + v 2) * 256 + v 3)
               * 256 + v 4) * 256 + v 5) * 256 + v 6) * 256 + v 7)
    with ((((v 4 * 256 + v 5) * 256 + v 6) * 256 + v 7)
          + (((v 0 * 256 + v 1) * 256 + v 2) * 256 + v 3) * 2 ^ 32)
    by (change (2 ^ 32) with 4294967296; ring).
  apply Z.mod_add. lia.
Qed.


(** ** Unmasked frames and the decoder of the receive loop *)

Lemma land_255 (x : Z) : Z.land x 255 = x mod 256.
Proof.
  change 255 with (Z.ones 8). rewrite Z.land_ones by lia. reflexivity.
Qed.

(** The byte [(x >> k) & 0xff] for a shift that is a multiple of 32
    plus [k]. *)
Lemma shifted_byte (L k : Z) :
  0 <= k < 32 ->
  b2z (u8 (band (sar L k) 0xff)) = (ToInt32 L / 2 ^ k) mod 256.
Proof.
  intros Hk. unfold band, sar.
  rewrite (Z.mod_small k 32) by lia.
  rewrite Z.shiftr_div_pow2 by lia.
  pose proof (ToInt32_range L) as HT.
  assert (Hr : - 2 ^ 31 <= ToInt32 L / 2 ^ k < 2 ^ 31).
  { assert (0 < 2 ^ k) by (apply Z.pow_pos_nonneg; lia).
    split.
    - apply Z.div_le_lower_bound; [lia|]. nia.
    - apply Z.div_lt_upper_bound; [lia|]. nia. }
  rewrite (ToInt32_small (ToInt32 L / 2 ^ k)) by exact Hr.
  rewrite (ToInt32_small 255) by lia.
  rewrite land_255. apply b2z_u8.
  apply Z.mod_pos_bound. lia.
Qed.

(** The four low bytes the encoder writes spell [ToInt32 L]. *)
Lemma low_bytes_value (T : Z) :
  ((((T / 2 ^ 24) mod 256 * 256 + (T / 2 ^ 16) mod 256) * 256
    + (T / 2 ^ 8) mod 256) * 256 + (T / 2 ^ 0) mod 256) mod 2 ^ 32
  = T mod 2 ^ 32.
Proof.
  change (2 ^ 24) with 16777216. change (2 ^ 16) with 65536.
  change (2 ^ 8) with 256. change (2 ^ 0) with 1.
  change (2 ^ 32) with 4294967296.
  Z.div_mod_to_equations. lia.
Qed.

(** A length up to 125 stored without the mask flag, as the receive
    loop reads it. *)
Lemma plain_length_byte' (b : byte) :
  b2z b <= 125 ->
  band (b2z (u8 (bor 0 (b2z b)))) 0x7f = b2z b
  /\ sar (band (b2z (u8 (bor 0 (b2z b)))) 0x80) 7 = 0.
Proof.
  destruct b; intros H;
    first [ split; reflexivity | exfalso; vm_compute in H; apply H; reflexivity ].
Qed.

(** The header the constructor builds when [masked] is [false]. *)
Definition unmasked_header (opcode L : Z) : Uint8Array :=
  if L <=? 125 then [u8 (bor 0x80 opcode); u8 (bor 0 L)]
  else if L <=? 65535 then
    [u8 (bor 0x80 opcode); x7e; u8 (band (sar L 8) 0xff); u8 (band L 0xff)]
  else
    [u8 (bor 0x80 opcode); x7f;
     u8 (band (sar L 56) 0xff); u8 (band (sar L 48) 0xff);
     u8 (band (sar L 40) 0xff); u8 (band (sar L 32) 0xff);
     u8 (band (sar L 24) 0xff); u8 (band (sar L 16) 0xff);
     u8 (band (sar L 8) 0xff); u8 (band (sar L 0) 0xff)].

Lemma unmasked_frame (opcode : Z) (payload : Uint8Array) (rnd : MaskingKey) :
  FrameGenerator opcode payload (Some false) rnd
  = {| frame := unmasked_header opcode (Z.of_nat (length payload)) ++ payload;
       header_of := unmasked_header opcode (Z.of_nat (length payload));
       data_after := payload |}.
Proof.
  unfold FrameGenerator, unmasked_header. cbn [this_masked mask_flag].
  set (L := Z.of_nat (length payload)).
  destruct (L >? 125) eqn:E1.
  - apply Z.gtb_lt in E1.
    assert (E1' : (L <=? 125) = false) by (apply Z.leb_gt; lia).
    rewrite E1'. destruct (L <=? 65535); reflexivity.
  - assert (E1' : (L <=? 125) = true).
    { apply Z.leb_le. destruct (Z.gtb_spec L 125); [discriminate | lia]. }
    rewrite E1'. reflexivity.
Qed.

Lemma sar_0 (L : Z) : sar L 0 = ToInt32 L.
Proof. unfold sar. change (0 mod 32) with 0. apply Z.shiftr_0_r. Qed.

(** What the receive loop reads from such a header, when it is at the
    start of the buffer: FIN set, the opcode, no mask, the payload
    right after the header; the length is the payload's up to 65535
    bytes and its [ToInt32] beyond. *)
(** Reads of a cell at a known index of a list with known head. *)
Ltac read_cells :=
  repeat match goal with
         | |- context [get ?l ?z] =>
             let n := eval vm_compute in (Z.to_nat z) in
             change (get l z) with (nth_error l n)
         end;
  cbn [app nth_error int32_of].

Lemma decode_unmasked_header (opcode L : Z) (tl : Uint8Array) :
  0 <= opcode < 16 -> 0 <= L ->
  decode_header (unmasked_header opcode L ++ tl) 0
  = {| h_fin := 1; h_opcode := opcode; h_mask := 0;
       h_payloadLen := if L <=? 65535 then L else ToInt32 L;
       h_start := Z.of_nat (length (unmasked_header opcode L)) |}.
Proof.
  intros Ho HL.
  destruct (opcode_byte (u8 opcode)) as [_ [_ [Hop Hfin]]];
    [rewrite b2z_u8; lia|].
  rewrite (b2z_u8 opcode) in Hop, Hfin by lia.
  unfold unmasked_header.
  destruct (L <=? 125) eqn:E1; [|destruct (L <=? 65535) eqn:E2].
  - apply Z.leb_le in E1.
    assert (E2 : (L <=? 65535) = true) by (apply Z.leb_le; lia).
    rewrite E2. unfold decode_header. read_cells.
    rewrite Hop, Hfin.
    destruct (plain_length_byte' (u8 L)) as [Hlen Hmask];
      [rewrite b2z_u8; lia|].
    rewrite (b2z_u8 L) in Hlen, Hmask by lia.
    rewrite Hlen, Hmask.
    destruct (L =? 126) eqn:E3; [apply Z.eqb_eq in E3; lia|].
    destruct (L =? 127) eqn:E4; [apply Z.eqb_eq in E4; lia|].
    reflexivity.
  - apply Z.leb_le in E2. apply Z.leb_gt in E1.
    unfold decode_header. read_cells.
    rewrite Hop, Hfin.
    change (band (b2z x7e) 127 =? 126) with true.
    change (sar (band (b2z x7e) 128) 7) with 0.
    cbv iota.
    rewrite shift_in_byte by apply b2z_range.
    assert (E : b2z (u8 (band (sar L 8) 255)) * 256 + b2z (u8 (band L 255))
                = L).
    { assert (H0 : band L 255 = band (sar L 0) 255).
      { unfold band. rewrite sar_0, ToInt32_idem. reflexivity. }
      rewrite H0, !shifted_byte by lia.
      rewrite (ToInt32_small L) by lia.
      change (2 ^ 8) with 256. change (2 ^ 0) with 1.
      Z.div_mod_to_equations. lia. }
    rewrite E, (ToInt32_small L) by lia. reflexivity.
  - apply Z.leb_gt in E1, E2. unfold decode_header. read_cells.
    rewrite Hop, Hfin.
    change (band (b2z x7f) 127 =? 126) with false.
    change (band (b2z x7f) 127 =? 127) with true.
    change (sar (band (b2z x7f) 128) 7) with 0.
    cbv iota.
    rewrite longPayloadLen_low_int32. cbv zeta. read_cells.
    rewrite !shifted_byte by lia.
    f_equal. apply ToInt32_congr. rewrite low_bytes_value.
    apply ToInt32_mod.
Qed.


(** What the loop body decodes at [offset] when the frame there is
    final and unmasked: its opcode, its payload and the offset the
    loop moves to. *)
Definition decode_at (buffer : Uint8Array) (offset : Z)
  : option (Z * Uint8Array * Z) :=
  let h := decode_header buffer offset in
  if (h_mask h =? 0) && negb (h_fin h =? 0) then
    Some (h_opcode h,
          subarray buffer (h_start h) (h_start h + h_payloadLen h),
          h_start h + h_payloadLen h)
  else None.

Lemma firstn_exact {A} (l r : list A) : firstn (length l) (l ++ r) = l.
Proof.
  induction l as [|x l IH]; cbn [length firstn app].
  - destruct r; reflexivity.
  - rewrite IH. reflexivity.
Qed.

Lemma subarray_payload (header payload rest : Uint8Array) :
  subarray (header ++ payload ++ rest) (Z.of_nat (length header))
    (Z.of_nat (length header) + Z.of_nat (length payload))
  = payload.
Proof.
  replace (Z.of_nat (length header))
    with (Z.of_nat (length header) + 0) at 1 by lia.
  rewrite subarray_behind by lia.
  unfold subarray, rel_index. rewrite length_app.
  change (0 <? 0) with false.
  destruct (Z.of_nat (length payload) <? 0) eqn:E;
    [apply Z.ltb_lt in E; lia|].
  rewrite Z.min_l by lia. rewrite Z.min_l by lia.
  replace (Z.max (Z.of_nat (length payload) - 0) 0)
    with (Z.of_nat (length payload)) by lia.
  rewrite Nat2Z.id. cbn [Z.to_nat skipn]. apply firstn_exact.
Qed.

(** X8.  The length the decoder reads from the header the encoder wrote for
    a payload of [L] bytes: [L] itself up to 65535 bytes, and beyond
    that the signed 32-bit value of [L], which is [L] exactly when
    [L < 2^31] and smaller than [L] otherwise. *)
Theorem decoded_length_of_encoded (opcode : Z) (payload tl : Uint8Array)
    (rnd : MaskingKey) :
  0 <= opcode < 16 ->
  let L := Z.of_nat (length payload) in
  let decoded :=
    h_payloadLen
      (decode_header
         (header_of (FrameGenerator opcode payload (Some false) rnd) ++ tl) 0)
  in
  decoded = (if L <=? 65535 then L else ToInt32 L)
  /\ (L < 2 ^ 31 -> decoded = L)
  /\ (2 ^ 31 <= L -> decoded < L).
Proof.
  intros Ho L decoded.
  assert (E : decoded = if L <=? 65535 then L else ToInt32 L).
  { unfold decoded. rewrite unmasked_frame. cbn [header_of].
    rewrite decode_unmasked_header by (unfold L; lia). reflexivity. }
  split; [exact E|]. rewrite E. split; intros H.
  - destruct (L <=? 65535); [reflexivity|].
    apply ToInt32_small. unfold L in *. lia.
  - destruct (L <=? 65535) eqn:E2; [apply Z.leb_le in E2; lia|].
    pose proof (ToInt32_range L). lia.
Qed.

Lemma decoded_length_of_encoded_witness :
  0 <= 2 < 16
  /\ h_payloadLen
       (decode_header
          (header_of (FrameGenerator 2 [x01; x02; x03] (Some false)
                        (x00, x00, x00, x00)) ++ [x01; x02; x03]) 0)
     = 3.
Proof.
  split; [lia|].
  assert (H : 0 <= 2 < 16) by lia.
  exact (proj1 (decoded_length_of_encoded 2 [x01; x02; x03] [x01; x02; x03]
                  (x00, x00, x00, x00) H)).
Defined.

(** X9.  Round trip through the codec: an unmasked frame built by
    [FrameGenerator] for a four-bit opcode and a payload shorter than
    2^31 bytes, placed anywhere in a buffer, is decoded by the loop
    body to the same opcode and payload, and the loop moves on to the
    byte after the frame. *)
Theorem unmasked_roundtrip (opcode : Z) (payload pre rest : Uint8Array)
    (rnd : MaskingKey) :
  0 <= opcode < 16 ->
  Z.of_nat (length payload) < 2 ^ 31 ->
  let fr := frame (FrameGenerator opcode payload (Some false) rnd) in
  decode_at (pre ++ fr ++ rest) (Z.of_nat (length pre))
  = Some (opcode, payload, Z.of_nat (length pre) + Z.of_nat (length fr)).
Proof.
  intros Ho Hl fr. unfold fr. rewrite unmasked_frame. cbn [frame].
  set (L := Z.of_nat (length payload)) in *.
  assert (HL : 0 <= L) by (unfold L; lia).
  rewrite <- (app_assoc (unmasked_header opcode L) payload rest).
  unfold decode_at. rewrite decode_header_behind.
  rewrite decode_unmasked_header by lia.
  cbv zeta. cbn [h_mask h_fin h_opcode h_start h_payloadLen Z.eqb andb negb].
  assert (E : (if L <=? 65535 then L else ToInt32 L) = L).
  { destruct (L <=? 65535); [reflexivity|]. apply ToInt32_small. lia. }
  rewrite E.
  rewrite <- Z.add_assoc.
  rewrite subarray_behind by lia.
  unfold L. rewrite subarray_payload.
  rewrite length_app. do 2 f_equal. lia.
Qed.

Lemma unmasked_roundtrip_witness :
  0 <= 1 < 16
  /\ Z.of_nat (length [x48; x69]) < 2 ^ 31
  /\ decode_at
       ([xff] ++ frame (FrameGenerator 1 [x48; x69] (Some false)
                          (x00, x00, x00, x00)) ++ [xee])
       (Z.of_nat (length [xff]))
     = Some (1, [x48; x69],
             Z.of_nat (length [xff])
             + Z.of_nat (length (frame (FrameGenerator 1 [x48; x69]
                                          (Some false)
                                          (x00, x00, x00, x00))))).
Proof.
  split; [lia|]. split; [cbn; lia|].
  apply (unmasked_roundtrip 1 [x48; x69] [xff] [xee] (x00, x00, x00, x00));
    [lia | cbn; lia].
Defined.


(** ** Frames packed in one buffer *)











(** ** send, close and the dispatcher *)

(** X14.  [send] of a text whose UTF-8 form has at most 125 bytes, in state
    Connected or Open with a transport: exactly one write, of a final
    masked Text frame that unmasks to the UTF-8 bytes; the state is
    Open when [send] returns, the completion callback is queued behind
    those already pending, and once they have all run the state is
    Connected. *)
Theorem send_writes_text_frame (s : Session) (c : Conn) (text : jsstring) :
  readyState s = CONNECTED \/ readyState s = OPEN ->
  connection s = Some c ->
  text <> [] ->
  Z.of_nat (length (TextEncoder_encode text)) <= 125 ->
  exists bytes,
    events (send text s) = events s ++ [ConnWrite c bytes]
    /\ wire_parse bytes
       = Some {| w_fin := true; w_opcode := 0x1; w_masked := true;
                 w_key := Some (next_key s);
                 w_payload := TextEncoder_encode text;
                 w_size := (6 + length (TextEncoder_encode text))%nat |}
    /\ readyState (send text s) = OPEN
    /\ tasks (send text s) = tasks s ++ [SendWritten]
    /\ readyState (settle_all (send text s)) = CONNECTED
    /\ tasks (settle_all (send text s)) = [].
Proof.
  intros Hr Hc Ht Hl.
  destruct text as [|u rest]; [congruence|].
  assert (E : send (u :: rest) s
              = set_tasks (tasks s ++ [SendWritten])
                  (emit (ConnWrite c
                           (frame (FrameGenerator 0x1
                                     (TextEncoder_encode (u :: rest))
                                     (Some true) (next_key s))))
                     (advance 4 (set_readyState OPEN s)))).
  { unfold send. destruct Hr as [Hr | Hr]; rewrite Hr;
      cbn [write connection advance set_readyState]; rewrite Hc;
      reflexivity. }
  rewrite E. eexists. split; [reflexivity|]. split.
  - apply masked_small_frame_on_wire; [lia | exact Hl].
  - split; [reflexivity|]. split; [reflexivity|].
    rewrite <- E.
    assert (Et : tasks (send (u :: rest) s) = tasks s ++ [SendWritten])
      by (rewrite E; reflexivity).
    destruct (settle_all_last _ _ _ Et) as (Ea & Hlast).
    split; [|apply settle_all_done].
    rewrite Ea. unfold settle at 1. rewrite Hlast. reflexivity.
Qed.

Lemma send_writes_text_frame_witness :
  readyState (sample_session CONNECTED (Some 1%nat)) = CONNECTED
  /\ connection (sample_session CONNECTED (Some 1%nat)) = Some 1%nat
  /\ exists bytes,
       events (send (lit "Hi") (sample_session CONNECTED (Some 1%nat)))
       = events (sample_session CONNECTED (Some 1%nat)) ++ [ConnWrite 1%nat bytes]
       /\ option_map w_payload (wire_parse bytes)
          = Some (TextEncoder_encode (lit "Hi")).
Proof.
  split; [reflexivity|]. split; [reflexivity|].
  destruct (send_writes_text_frame (sample_session CONNECTED (Some 1%nat))
              1%nat (lit "Hi") (or_introl eq_refl) eq_refl)
    as [bytes [He [Hw _]]].
  - discriminate.
  - cbn. lia.
  - exists bytes. split; [exact He|]. rewrite Hw. reflexivity.
Defined.

(** X15.  [send] of a text whose UTF-8 form has 126 to 65535 bytes: the one
    frame written has the masking key at bytes 2 to 5, where the 16-bit
    length belongs, and two zero bytes after it.  On the wire its
    header announces the length spelled by the first two key bytes. *)
Theorem send_medium_text_overwrites_length (s : Session) (c : Conn)
    (text : jsstring) :
  readyState s = CONNECTED \/ readyState s = OPEN ->
  connection s = Some c ->
  125 < Z.of_nat (length (TextEncoder_encode text)) <= 65535 ->
  events (send text s)
  = events s
    ++ [ConnWrite c
          ([x81; xfe] ++ key_bytes (next_key s) ++ [x00; x00]
           ++ xor_from 0 (next_key s) (TextEncoder_encode text))].
Proof.
  intros Hr Hc Hl.
  destruct text as [|u rest]; [cbn in Hl; lia|].
  unfold send. destruct Hr as [Hr | Hr]; rewrite Hr;
    cbn [write connection advance set_readyState]; rewrite Hc;
    cbn [events set_tasks emit advance set_readyState];
    rewrite masked_medium_frame by exact Hl; reflexivity.
Qed.

Lemma send_medium_text_overwrites_length_witness :
  readyState (sample_session CONNECTED (Some 1%nat)) = CONNECTED
  /\ connection (sample_session CONNECTED (Some 1%nat)) = Some 1%nat
  /\ 125 < Z.of_nat (length (TextEncoder_encode (repeat 97 126))) <= 65535
  /\ firstn 8
       (match events (send (repeat 97 126)
                        (sample_session CONNECTED (Some 1%nat))) with
        | [ConnWrite _ bytes] => bytes
        | _ => []
        end)
     = [x81; xfe; x74; x68; x65; x20; x00; x00].
Proof.
  split; [reflexivity|]. split; [reflexivity|].
  split; [vm_compute; split; [reflexivity | discriminate]|].
  rewrite (send_medium_text_overwrites_length
             (sample_session CONNECTED (Some 1%nat)) 1%nat (repeat 97 126)
             (or_introl eq_refl) eq_refl).
  - reflexivity.
  - vm_compute. split; [reflexivity | discriminate].
Defined.

(** X17.  Every opcode other than Text, Binary, Ping and Close, Pong (0xA)
    included, is answered by [close(INVALID_OPCODE)]: in state
    Connected with a transport the session writes a Close frame with
    status 1003, drops the transport and enters Closing; no callback
    runs. *)
Theorem unhandled_opcode_closes (opcode : Z) (payload : Uint8Array)
    (s : Session) (c : Conn) :
  opcode <> 0x1 -> opcode <> 0x2 -> opcode <> 0x9 -> opcode <> 0x8 ->
  handleFrame opcode payload s = (close INVALID_OPCODE s, payload)
  /\ (readyState s = CONNECTED -> connection s = Some c ->
      events (fst (handleFrame opcode payload s))
      = events s ++ [ConnWrite c (close_frame 1003 (next_key s))]
      /\ readyState (fst (handleFrame opcode payload s)) = CLOSING
      /\ connection (fst (handleFrame opcode payload s)) = None).
Proof.
  intros H1 H2 H9 H8.
  assert (E : handleFrame opcode payload s = (close INVALID_OPCODE s, payload)).
  { unfold handleFrame.
    destruct (opcode =? 1) eqn:E1; [apply Z.eqb_eq in E1; contradiction|].
    destruct (opcode =? 2) eqn:E2; [apply Z.eqb_eq in E2; contradiction|].
    destruct (opcode =? 9) eqn:E9; [apply Z.eqb_eq in E9; contradiction|].
    destruct (opcode =? 8) eqn:E8; [apply Z.eqb_eq in E8; contradiction|].
    reflexivity. }
  split; [exact E|]. intros Hr Hc. rewrite E. cbn [fst].
  rewrite (close_when_active s INVALID_OPCODE c) by tauto.
  repeat split.
Qed.

Lemma unhandled_opcode_closes_witness :
  0xA <> 0x1 /\ 0xA <> 0x2 /\ 0xA <> 0x9 /\ 0xA <> 0x8
  /\ handleFrame 0xA [] (sample_session CONNECTED (Some 1%nat))
     = (close INVALID_OPCODE (sample_session CONNECTED (Some 1%nat)), []).
Proof.
  assert (H1 : 0xA <> 0x1) by discriminate.
  assert (H2 : 0xA <> 0x2) by discriminate.
  assert (H9 : 0xA <> 0x9) by discriminate.
  assert (H8 : 0xA <> 0x8) by discriminate.
  split; [exact H1|]. split; [exact H2|]. split; [exact H9|].
  split; [exact H8|].
  exact (proj1 (unhandled_opcode_closes 0xA []
                  (sample_session CONNECTED (Some 1%nat)) 0%nat H1 H2 H9 H8)).
Defined.

(** The two bytes [(x >> 8) & 0xFF], [x & 0xFF] read back by
    [(a << 8) | b]. *)
Lemma two_bytes_value (x : Z) :
  0 <= x <= 65535 ->
  bor (shl (b2z (u8 (band (sar x 8) 0xFF))) 8) (b2z (u8 (band x 0xFF))) = x.
Proof.
  intros H. rewrite shift_in_byte by apply b2z_range.
  assert (H0 : band x 255 = band (sar x 0) 255).
  { unfold band. rewrite sar_0, ToInt32_idem. reflexivity. }
  rewrite H0, !shifted_byte by lia.
  rewrite (ToInt32_small x) by lia.
  change (2 ^ 8) with 256. change (2 ^ 0) with 1.
  rewrite <- (ToInt32_small x) at 3 by lia.
  f_equal. Z.div_mod_to_equations. lia.
Qed.

(** X18.  The status code travels intact: for a code of 16 bits, the frame
    [close] writes is, on the wire, a final masked Close frame whose
    two payload bytes are read by [handleFrame] as that same code. *)
Theorem close_frame_carries_code (errorType : ErrorTypes) (k : MaskingKey) :
  0 <= errorType <= 65535 ->
  exists payload,
    wire_parse (close_frame errorType k)
    = Some {| w_fin := true; w_opcode := 0x8; w_masked := true;
              w_key := Some k; w_payload := payload; w_size := 8 |}
    /\ length payload = 2%nat
    /\ close_code payload = errorType.
Proof.
  intros H.
  exists [u8 (band (sar errorType 8) 0xFF); u8 (band errorType 0xFF)].
  split; [|split].
  - unfold close_frame.
    rewrite masked_small_frame_on_wire by (cbn; lia). reflexivity.
  - reflexivity.
  - unfold close_code. read_cells. apply two_bytes_value. exact H.
Qed.


Lemma close_frame_carries_code_witness :
  0 <= PROTOCOL_ERROR <= 65535
  /\ exists payload,
       option_map w_payload
         (wire_parse (close_frame PROTOCOL_ERROR (x74, x68, x65, x20)))
       = Some payload
       /\ close_code payload = PROTOCOL_ERROR.
Proof.
  assert (H : 0 <= PROTOCOL_ERROR <= 65535) by (unfold PROTOCOL_ERROR; lia).
  split; [exact H|].
  destruct (close_frame_carries_code PROTOCOL_ERROR (x74, x68, x65, x20) H)
    as [payload [Hw [_ Hc]]].
  exists payload. rewrite Hw. split; [reflexivity | exact Hc].
Defined.

(** X19.  Closed is not final.  A Close frame handled while a [send] is in
    flight sets the state to Closed and keeps the transport; when the
    write of the [send] completes, its callback sets the state back to
    Connected, and the next [send] writes to the transport again. *)
Theorem closed_is_not_terminal (s : Session) (c : Conn)
    (text text' : jsstring) (payload : Uint8Array) :
  readyState s = CONNECTED ->
  connection s = Some c ->
  tasks s = [] ->
  text <> [] -> text' <> [] ->
  let closed := fst (handleFrame 0x8 payload (send text s)) in
  readyState closed = CLOSED
  /\ connection closed = Some c
  /\ readyState (settle closed) = CONNECTED
  /\ exists bytes,
       events (send text' (settle closed))
       = events (settle closed) ++ [ConnWrite c bytes].
Proof.
  intros Hr Hc Ht Hn Hn' closed.
  destruct text as [|u rest]; [congruence|].
  destruct text' as [|u' rest']; [congruence|].
  assert (E : send (u :: rest) s
              = set_tasks (tasks s ++ [SendWritten])
                  (emit (ConnWrite c
                           (frame (FrameGenerator 0x1
                                     (TextEncoder_encode (u :: rest))
                                     (Some true) (next_key s))))
                     (advance 4 (set_readyState OPEN s)))).
  { unfold send. rewrite Hr.
    cbn [write connection advance set_readyState]. rewrite Hc.
    reflexivity. }
  unfold closed. rewrite handleFrame_close, E. cbn [fst].
  assert (Hst : forall x code,
             settle (call_onClose code (set_readyState CLOSED
               (set_tasks (tasks s ++ [SendWritten]) x)))
             = set_readyState CONNECTED
                 (set_tasks [] (call_onClose code (set_readyState CLOSED
                    (set_tasks (tasks s ++ [SendWritten]) x))))).
  { intros x code. unfold settle, call_onClose. rewrite Ht.
    destruct (onClose _); reflexivity. }
  rewrite Hst.
  split; [unfold call_onClose; destruct (onClose _); reflexivity|].
  split; [unfold call_onClose; cbn [onClose set_readyState set_tasks emit advance];
          destruct (onClose s); cbn; exact Hc|].
  split; [reflexivity|].
  match goal with
  | |- exists bytes, events (send _ ?x) = _ =>
      destruct (send_writes_when_connected x c u' rest') as [bytes [Hb _]];
        [reflexivity | | exists bytes; exact Hb]
  end.
  unfold call_onClose; cbn [onClose set_readyState set_tasks emit advance].
  destruct (onClose s); cbn; exact Hc.
Qed.

Lemma closed_is_not_terminal_witness :
  readyState (sample_session CONNECTED (Some 1%nat)) = CONNECTED
  /\ readyState
       (fst (handleFrame 0x8 [x03; xe8]
               (send (lit "a") (sample_session CONNECTED (Some 1%nat)))))
     = CLOSED
  /\ readyState
       (settle (fst (handleFrame 0x8 [x03; xe8]
                       (send (lit "a")
                          (sample_session CONNECTED (Some 1%nat))))))
     = CONNECTED.
Proof.
  split; [reflexivity|].
  assert (Ha : lit "a" <> []) by discriminate.
  destruct (closed_is_not_terminal (sample_session CONNECTED (Some 1%nat))
              1%nat (lit "a") (lit "a") [x03; xe8]
              eq_refl eq_refl eq_refl Ha Ha) as [H1 [_ [H2 _]]].
  split; [exact H1 | exact H2].
Defined.

(** ** A length field that sends the loop backwards *)

(** X20.  A non-final frame whose 64-bit length field ends in FF FF FF F6
    announces, as the loop reads it, a payload of -10 bytes: after the
    10 header bytes the offset is back where it was, so the loop
    decodes the same frame again and never ends, whatever the session,
    the bytes after the frame, the fragments pending and the number of
    iterations allowed. *)
Theorem negative_length_never_ends (fuel : nat) (dataLength : Z) (b0 : byte)
    (a b c d : byte) (pre rest : Uint8Array) (mb : list Uint8Array)
    (s : Session) :
  Z.of_nat (length pre) < dataLength ->
  Z.testbit (b2z b0) 7 = false ->
  frames_loop fuel dataLength (Z.of_nat (length pre))
    (pre ++ [b0; x7f; a; b; c; d; xff; xff; xff; xf6] ++ rest) mb s
  = None.
Proof.
  intros Hlt Hfin. revert mb.
  induction fuel as [|fuel IH]; intros mb; [reflexivity|].
  cbn [frames_loop].
  pose proof Hlt as Hlt'. apply Z.ltb_lt in Hlt'. rewrite Hlt'.
  rewrite decode_header_behind.
  assert (Hd : decode_header
                 ([b0; x7f; a; b; c; d; xff; xff; xff; xf6] ++ rest) 0
               = {| h_fin := 0; h_opcode := band (b2z b0) 15; h_mask := 0;
                    h_payloadLen := -10; h_start := 10 |}).
  { unfold decode_header. read_cells.
    change (band (b2z x7f) 127 =? 126) with false.
    change (band (b2z x7f) 127 =? 127) with true.
    cbv iota. rewrite longPayloadLen_low_int32. cbv zeta. read_cells.
    pose proof (mask_bit_of_byte b0) as Hb. rewrite Hfin in Hb.
    apply Z.eqb_eq in Hb. rewrite Hb. reflexivity. }
  rewrite Hd. cbv zeta.
  cbn [h_mask h_fin h_opcode h_start h_payloadLen Z.eqb negb].
  rewrite deliver_pending.
  cbn [rx_buffer messageBuffer rx_session].
  replace (Z.of_nat (length pre) + 10 + -10) with (Z.of_nat (length pre))
    by lia.
  apply IH.
Qed.

Lemma negative_length_never_ends_witness :
  Z.of_nat (length (@nil byte)) < 10
  /\ Z.testbit (b2z x01) 7 = false
  /\ frames_loop 1000 10 (Z.of_nat (length (@nil byte)))
       ([] ++ [x01; x7f; x00; x00; x00; x00; xff; xff; xff; xf6] ++ [])
       [] (sample_session CONNECTED (Some 1%nat))
     = None.
Proof.
  split; [cbn; lia|]. split; [reflexivity|].
  apply (negative_length_never_ends 1000 10 x01 x00 x00 x00 x00 [] [] []
           (sample_session CONNECTED (Some 1%nat)));
    [cbn; lia | reflexivity].
Defined.


(** ** The handshake: what [connect] accepts and where it throws *)

Lemma connect_accepts_every_response_witness :
  protocol (url (sample_session CLOSED None)) = lit "ws:"
  /\ check_lines
       (generateSecWebSocketKey
          (set_readyState CONNECTING (sample_session CLOSED None)))
       (removelast (split (fst (read refused_response)) crlf)) []
     = Some []
  /\ readyState (connect (Some 1%nat) (ReadData refused_response)
                   (sample_session CLOSED None))
     = CONNECTED.
Proof.
  assert (Hp : protocol (url (sample_session CLOSED None)) = lit "ws:")
    by reflexivity.
  assert (Hc : check_lines
                 (generateSecWebSocketKey
                    (set_readyState CONNECTING (sample_session CLOSED None)))
                 (removelast (split (fst (read refused_response)) crlf)) []
               = Some []) by (vm_compute; reflexivity).
  split; [exact Hp|]. split; [exact Hc|].
  exact (proj1 (connect_accepts_every_response 1%nat refused_response
                  (sample_session CLOSED None) [] Hp Hc)).
Defined.

Lemma check_line_bare_name (key : jsstring) (checks : Checks) :
  check_line key (lit "connection") checks = None
  /\ check_line key (lit "upgrade") checks = None.
Proof. split; reflexivity. Qed.

(** A response line that is just [connection] or [upgrade], with no
    [": "] after the name, makes the validation loop throw: reading
    [field[1].trim()] fails on [undefined]. *)
Lemma bare_header_name_throws (key : jsstring) (response : list jsstring) :
  forall checks,
    In (lit "connection") response \/ In (lit "upgrade") response ->
    check_lines key response checks = None.
Proof.
  induction response as [|line rest IH]; intros checks H.
  - destruct H as [[] | []].
  - cbn [check_lines]. destruct line as [|u line].
    + apply IH. destruct H as [[E | H] | [E | H]];
        try discriminate E; [left | right]; exact H.
    + destruct (check_line key (u :: line) checks) as [cs|] eqn:E;
        [|reflexivity].
      destruct H as [[El | H] | [El | H]].
      * rewrite El in E.
        rewrite (proj1 (check_line_bare_name key checks)) in E. discriminate.
      * apply IH. left. exact H.
      * rewrite El in E.
        rewrite (proj2 (check_line_bare_name key checks)) in E. discriminate.
      * apply IH. right. exact H.
Qed.

(** X6.  When a response line examined by the validation loop is just
    [connection] or [upgrade], with nothing after the name, [connect]
    ends in a rejected promise after writing the request: the state
    stays Connecting, the transport is not retained, the receive loop
    is not started and [onReady] is not called. *)
Theorem connect_throws_on_bare_header (conn : Conn) (bytes : Uint8Array)
    (s : Session) :
  protocol (url s) = lit "ws:" \/ protocol (url s) = lit "wss:" ->
  (let lines := removelast (split (fst (read bytes)) crlf) in
   In (lit "connection") lines \/ In (lit "upgrade") lines) ->
  exists request,
    events (connect (Some conn) (ReadData bytes) s)
    = events s ++ [ConnWrite conn request; Rejected InConnect]
    /\ readyState (connect (Some conn) (ReadData bytes) s) = CONNECTING
    /\ connection (connect (Some conn) (ReadData bytes) s) = connection s.
Proof.
  intros Hp Hin. cbv zeta in Hin. unfold connect. cbv zeta.
  change (url (set_readyState CONNECTING s)) with (url s).
  assert (Hk : str_eqb (protocol (url s)) (lit "ws:")
               || str_eqb (protocol (url s)) (lit "wss:") = true).
  { destruct Hp as [-> | ->]; reflexivity. }
  rewrite Hk.
  rewrite (bare_header_name_throws _ _ _ Hin).
  eexists. cbn [write fst events emit readyState connection advance
                  set_readyState].
  rewrite <- app_assoc. cbn [app]. repeat split.
Qed.

(** A response with the bare line [connection]. *)
Definition bare_response : Uint8Array :=
  TextEncoder_encode
    (join [lit "HTTP/1.1 101 Switching Protocols"; lit "connection";
           lit "upgrade: websocket"; []; []] crlf).

Lemma connect_throws_on_bare_header_witness :
  (protocol (url (sample_session CLOSED None)) = lit "ws:"
   \/ protocol (url (sample_session CLOSED None)) = lit "wss:")
  /\ In (lit "connection")
       (removelast (split (fst (read bare_response)) crlf))
  /\ readyState (connect (Some 1%nat) (ReadData bare_response)
                   (sample_session CLOSED None))
     = CONNECTING.
Proof.
  assert (Hp : protocol (url (sample_session CLOSED None)) = lit "ws:"
               \/ protocol (url (sample_session CLOSED None)) = lit "wss:")
    by (left; reflexivity).
  assert (Hin : In (lit "connection")
                  (removelast (split (fst (read bare_response)) crlf))).
  { vm_compute. right. left. reflexivity. }
  split; [exact Hp|]. split; [exact Hin|].
  destruct (connect_throws_on_bare_header 1%nat bare_response
              (sample_session CLOSED None) Hp (or_introl Hin))
    as [request [_ [Hr _]]].
  exact Hr.
Defined.


(** ** read: the text length that bounds the loop *)

Lemma lead_emit_ascii (x c : Z) : lead x = LeadEmit c -> c = x /\ x <= 0x7F.
Proof.
  unfold lead. intros H.
  destruct (x <=? 127) eqn:E.
  - injection H as <-. apply Z.leb_le in E. split; [reflexivity | exact E].
  - destruct ((194 <=? x) && (x <=? 223)); [discriminate|].
    destruct ((224 <=? x) && (x <=? 239)); [discriminate|].
    destruct ((240 <=? x) && (x <=? 244)); discriminate.
Qed.

Lemma utf16_units_length (c : Z) :
  (1 <= length (utf16_units c) <= 2)%nat.
Proof. unfold utf16_units. destruct (c <? 65536); cbn; lia. Qed.

Lemma utf16_units_small (c : Z) : c < 0x10000 -> utf16_units c = [c].
Proof.
  intros H. unfold utf16_units.
  destruct (c <? 65536) eqn:E; [reflexivity|]. apply Z.ltb_ge in E. lia.
Qed.

(** The decoder never produces more code units than it was given
    bytes (one more may be owed to bytes consumed before). *)
Lemma utf8_decode_units (bs : Uint8Array) :
  forall st,
    (length (flat_map utf16_units (utf8_decode st bs))
     <= length bs + match st with Some _ => 1 | None => 0 end)%nat.
Proof.
  induction bs as [|b t IH]; intros st.
  - destruct st; cbn; lia.
  - cbn [utf8_decode].
    pose proof (IH None) as IH0. cbn beta iota in IH0.
    pose proof (fun q => IH (Some q)) as IH1. cbn beta iota in IH1.
    clear IH.
    assert (Hlead :
      (length (flat_map utf16_units
                 match lead (b2z b) with
                 | LeadEmit c => c :: utf8_decode None t
                 | LeadStart p => utf8_decode (Some p) t
                 | LeadError => 65533%Z :: utf8_decode None t
                 end) <= length (b :: t))%nat).
    { destruct (lead (b2z b)) as [c|p|] eqn:E.
      - apply lead_emit_ascii in E. destruct E as [-> E].
        cbn [flat_map]. rewrite utf16_units_small by lia.
        cbn [length app]. lia.
      - specialize (IH1 p). cbn [length]. lia.
      - cbn [flat_map]. change (utf16_units 65533) with [65533].
        cbn [length app]. lia. }
    destruct st as [p|]; [|lia].
    destruct ((lower p <=? b2z b) && (b2z b <=? upper p)).
    + destruct (need p) as [|[|n]].
      * cbn [flat_map]. rewrite length_app.
        pose proof (utf16_units_length
                      (Z.lor (Z.shiftl (cp p) 6) (Z.land (b2z b) 63))).
        cbn [length]. lia.
      * cbn [flat_map]. rewrite length_app.
        pose proof (utf16_units_length
                      (Z.lor (Z.shiftl (cp p) 6) (Z.land (b2z b) 63))).
        cbn [length]. lia.
      * match goal with
        | |- context [utf8_decode (Some ?q) t] => specialize (IH1 q)
        end.
        cbn [length]. lia.
    + cbn [flat_map]. change (utf16_units 65533) with [65533].
      cbn [app length]. cbn [length] in Hlead. lia.
Qed.

Lemma strip_bom_units (cps : list Z) :
  (length (flat_map utf16_units (strip_bom cps))
   <= length (flat_map utf16_units cps))%nat.
Proof.
  destruct cps as [|c t]; [cbn; lia|].
  unfold strip_bom. destruct (c =? 65279); [|lia].
  cbn [flat_map]. rewrite length_app. lia.
Qed.

Lemma trimStart_length (s : jsstring) : (length (trimStart s) <= length s)%nat.
Proof.
  induction s as [|c t IH]; cbn [trimStart]; [lia|].
  destruct (is_space c); cbn [length]; lia.
Qed.

Lemma trim_length (s : jsstring) : (length (trim s) <= length s)%nat.
Proof.
  unfold trim. rewrite length_rev.
  pose proof (trimStart_length (rev (trimStart s))) as H1.
  rewrite length_rev in H1.
  pose proof (trimStart_length s). lia.
Qed.

(** Every read hands the receive loop a buffer of exactly 65536 bytes
    that starts with the bytes received and is zero after them, and a
    text whose length, the bound of the inner loop, is never more than
    the number of bytes received: the loop never starts to decode a
    frame at or after the end of the received bytes. *)
Lemma read_shape (bytes : Uint8Array) :
  let received := firstn READ_SIZE bytes in
  (length (fst (read bytes)) <= length received)%nat
  /\ (length received <= READ_SIZE)%nat
  /\ length (snd (read bytes)) = READ_SIZE
  /\ snd (read bytes)
     = received ++ repeat x00 (READ_SIZE - length received).
Proof.
  intros received. unfold read. fold received. cbn [fst snd].
  assert (Hr : (length received <= READ_SIZE)%nat).
  { unfold received. rewrite length_firstn. lia. }
  split; [|split; [exact Hr|split; [|reflexivity]]].
  - unfold TextDecoder_decode.
    pose proof (trim_length
                  (flat_map utf16_units (strip_bom (utf8_decode None received)))).
    pose proof (strip_bom_units (utf8_decode None received)).
    pose proof (utf8_decode_units received None) as H3.
    cbn beta iota in H3. lia.
  - rewrite length_app, repeat_length. lia.
Qed.


(** ** One frame, one read *)














(** ** A frame cut short by the read *)





(** ** Masked frames longer than 125 bytes *)

(** X16.  For every masked frame whose payload has more than 125 bytes, the
    masking key is stored at bytes 2 to 5, where the extended length
    belongs, and the four bytes after the extended length, where a
    receiver takes the key from, are the last two key bytes followed
    by two zeros (16-bit length) or four zeros (64-bit length). *)
Theorem long_masked_frame_misplaces_key (opcode : Z) (payload : Uint8Array)
    (rnd : MaskingKey) :
  125 < Z.of_nat (length payload) ->
  let g := FrameGenerator opcode payload (Some true) rnd in
  let ext := payloadLenBytes (Z.of_nat (length payload)) in
  length (header_of g) = (6 + ext)%nat
  /\ frame g = header_of g ++ xor_from 0 rnd payload
  /\ firstn 4 (skipn 2 (header_of g)) = key_bytes rnd
  /\ firstn 4 (skipn (2 + ext) (header_of g))
     = (if Z.of_nat (length payload) <=? 65535
        then skipn 2 (key_bytes rnd) ++ [x00; x00]
        else [x00; x00; x00; x00]).
Proof.
  intros H g ext. destruct rnd as [[[k0 k1] k2] k3].
  unfold g, ext, FrameGenerator, payloadLenBytes.
  cbn [this_masked mask_flag].
  set (L := Z.of_nat (length payload)) in *.
  assert (E1 : (L >? 125) = true).
  { destruct (Z.gtb_spec L 125); [reflexivity | lia]. }
  assert (E2 : (L <=? 125) = false) by (apply Z.leb_gt; lia).
  rewrite E1, E2.
  destruct (L <=? 65535); repeat split.
Qed.

Lemma long_masked_frame_misplaces_key_witness :
  125 < Z.of_nat (length (repeat x61 126))
  /\ firstn 4
       (skipn 2 (header_of (FrameGenerator 1 (repeat x61 126) (Some true)
                              (x74, x68, x65, x20))))
     = key_bytes (x74, x68, x65, x20).
Proof.
  assert (H : 125 < Z.of_nat (length (repeat x61 126))) by (cbn; lia).
  split; [exact H|].
  destruct (long_masked_frame_misplaces_key 1 (repeat x61 126)
              (x74, x68, x65, x20) H) as [_ [_ [Hk _]]].
  exact Hk.
Defined.

(** ** The receive loop when a read fails *)

(** X21.  End of stream and read errors end the receive loop without reading
    further.  At end of stream or on an empty read the session calls
    [close(INTERNAL_ERROR)]: it writes a Close frame with status 1011,
    drops the transport and enters Closing.  An Interrupted or
    BadResource error only leaves the loop: nothing is written or
    reported and the state stays Connected. *)
Theorem read_failure_ends_loop (fuel : nat) (rest : list ReadOutcome)
    (s : Session) (c : Conn) :
  readyState s = CONNECTED ->
  connection s = Some c ->
  listenForFrames fuel (ReadEnd :: rest) s = Some (close INTERNAL_ERROR s)
  /\ listenForFrames fuel (ReadData [] :: rest) s
     = Some (close INTERNAL_ERROR s)
  /\ events (close INTERNAL_ERROR s)
     = events s ++ [ConnWrite c (close_frame 1011 (next_key s))]
  /\ readyState (close INTERNAL_ERROR s) = CLOSING
  /\ connection (close INTERNAL_ERROR s) = None
  /\ listenForFrames fuel (ReadInterrupted :: rest) s = Some s.
Proof.
  intros Hr Hc. unfold listenForFrames. rewrite Hc.
  cbn [listen_loop]. rewrite Hr, Hc.
  rewrite (close_when_active s INTERNAL_ERROR c) by tauto.
  repeat split.
Qed.

Lemma read_failure_ends_loop_witness :
  readyState (sample_session CONNECTED (Some 1%nat)) = CONNECTED
  /\ connection (sample_session CONNECTED (Some 1%nat)) = Some 1%nat
  /\ listenForFrames 1 [ReadEnd; ReadData [x81; x00]]
       (sample_session CONNECTED (Some 1%nat))
     = Some (close INTERNAL_ERROR (sample_session CONNECTED (Some 1%nat))).
Proof.
  split; [reflexivity|]. split; [reflexivity|].
  exact (proj1 (read_failure_ends_loop 1 [ReadData [x81; x00]]
                  (sample_session CONNECTED (Some 1%nat)) 1%nat
                  eq_refl eq_refl)).
Defined.


(** ** The codec, the reassembler and the length field *)

(** X1.  Masking round trip.  For every opcode, payload and key, a
    frame built with [masked = true] is its header followed by the
    payload XORed with the key, byte [i] with key byte [i mod 4]; the
    caller's array is left holding those masked bytes; and XORing them
    with the key again gives the payload back. *)
Theorem masked_payload_region (opcode : Z) (payload : Uint8Array)
    (rnd : MaskingKey) :
  let g := FrameGenerator opcode payload (Some true) rnd in
  frame g = header_of g ++ data_after g
  /\ data_after g = xor_from 0 rnd payload
  /\ length (data_after g) = length payload
  /\ xor_from 0 rnd (data_after g) = payload.
Proof.
  cbv zeta. unfold FrameGenerator. cbn [this_masked frame header_of data_after].
  repeat split.
  - apply xor_from_length.
  - apply xor_from_twice.
Qed.

(** X2.  A masked frame with a four-bit opcode and at most 125 payload
    bytes, followed in the stream by any further bytes, is read off the
    wire as one final masked frame of 6 bytes plus the payload, with
    the opcode, the key and the payload it was built from. *)
Theorem client_frame_on_wire (opcode : Z) (payload rest : Uint8Array)
    (rnd : MaskingKey) :
  0 <= opcode < 16 ->
  Z.of_nat (length payload) <= 125 ->
  wire_parse (frame (FrameGenerator opcode payload (Some true) rnd) ++ rest)
  = Some {| w_fin := true; w_opcode := opcode; w_masked := true;
            w_key := Some rnd; w_payload := payload;
            w_size := (6 + length payload)%nat |}.
Proof.
  intros Ho Hl. rewrite masked_small_frame by exact Hl.
  destruct rnd as [[[k0 k1] k2] k3].
  cbn [frame key_bytes app wire_parse].
  set (L := Z.of_nat (length payload)) in *.
  assert (HL : 0 <= L) by (unfold L; lia).
  destruct (masked_length_byte (u8 L)) as [Hb Hlen];
    [rewrite b2z_u8; lia|].
  rewrite (b2z_u8 L) in Hb, Hlen by lia.
  destruct (opcode_byte (u8 opcode)) as [Hf [Hop _]];
    [rewrite b2z_u8; lia|].
  rewrite (b2z_u8 opcode) in Hf, Hop by lia.
  rewrite Hlen, Hb, Hf, Hop.
  rewrite (wire_ext_small L) by lia.
  cbn [Nat.ltb Nat.leb length skipn firstn Nat.add].
  rewrite length_app, xor_from_length.
  destruct (Z.of_nat (length payload + length rest) <? L) eqn:E;
    [apply Z.ltb_lt in E; unfold L in E; lia|].
  unfold L. rewrite Nat2Z.id.
  rewrite <- (xor_from_length (k0, k1, k2, k3) payload 0) at 1.
  rewrite firstn_exact, xor_from_twice.
  reflexivity.
Qed.

Lemma client_frame_on_wire_witness :
  0 <= 1 < 16
  /\ Z.of_nat (length [x48; x69]) <= 125
  /\ wire_parse
       (frame (FrameGenerator 1 [x48; x69] (Some true) (x01, x02, x03, x04))
        ++ [x8a; x80])
     = Some {| w_fin := true; w_opcode := 1; w_masked := true;
               w_key := Some (x01, x02, x03, x04);
               w_payload := [x48; x69]; w_size := 8 |}.
Proof.
  assert (Ho : 0 <= 1 < 16) by lia.
  assert (Hl : Z.of_nat (length [x48; x69]) <= 125) by (cbn; lia).
  split; [exact Ho|]. split; [exact Hl|].
  exact (client_frame_on_wire 1 [x48; x69] [x8a; x80] (x01, x02, x03, x04)
           Ho Hl).
Defined.

Lemma ping_answered_small_witness :
  Z.of_nat (length [x61; x62; x63]) <= 125
  /\ connection (sample_session CONNECTED (Some 1%nat)) = Some 1%nat
  /\ exists bytes,
       events (fst (handleFrame 0x9 [x61; x62; x63]
                      (sample_session CONNECTED (Some 1%nat))))
       = [ConnWrite 1%nat bytes]
       /\ option_map w_payload (wire_parse bytes) = Some [x61; x62; x63].
Proof.
  assert (Hl : Z.of_nat (length [x61; x62; x63]) <= 125) by (cbn; lia).
  split; [exact Hl|]. split; [reflexivity|].
  destruct (ping_answered_small [x61; x62; x63]
              (sample_session CONNECTED (Some 1%nat)) 1%nat Hl eq_refl)
    as [bytes [He [Hw _]]].
  exists bytes. split; [exact He|]. rewrite Hw. reflexivity.
Defined.

(** X4.  Reassembly.  A run of fragments, a first frame and any number
    of continuation frames with FIN clear, then a frame with FIN set,
    is concatenated in arrival order and dispatched once, under the
    opcode of the frame that ends it; nothing of the first frame's
    opcode is kept.  When the last frame is a continuation (opcode 0)
    the dispatch is [close(INVALID_OPCODE)], and the messages handed to
    [onMessage] are those from before the run. *)
Theorem fragment_run_dispatch (first last : Z) (p1 : Uint8Array)
    (conts : list Uint8Array) (pf : Uint8Array) (buffer : Uint8Array)
    (s : Session) :
  let run l :=
    deliver_all
      ((0, first, p1) :: map (fun p => (0, 0, p)) conts ++ [(1, l, pf)])
      {| rx_session := s; messageBuffer := []; rx_buffer := buffer |} in
  run last
  = {| rx_session := fst (handleFrame last (p1 ++ concat conts ++ pf) s);
       messageBuffer := []; rx_buffer := buffer |}
  /\ rx_session (run 0) = close INVALID_OPCODE s
  /\ filter is_OnMessage (events (rx_session (run 0)))
     = filter is_OnMessage (events s).
Proof.
  cbv zeta. split; [apply run_dispatches_last_opcode|].
  rewrite run_ended_by_continuation. split; [reflexivity|].
  apply callbacks_same_messages, close_runs_no_callback.
Qed.

(** X7.  The 64-bit length field as the receive loop reads it: the
    first four of its eight bytes have no effect, and the last four are
    read as one signed 32-bit number, so the length decoded always
    lies between -2^31 and 2^31 - 1. *)
Theorem long_length_is_int32_of_low_bytes (buffer : Uint8Array) (offset : Z) :
  let v i := int32_of (get buffer (offset + i)) in
  longPayloadLen buffer offset 0 8 0
  = ToInt32 (((v 4 * 256 + v 5) * 256 + v 6) * 256 + v 7)
  /\ - 2 ^ 31 <= longPayloadLen buffer offset 0 8 0 < 2 ^ 31.
Proof.
  cbv zeta. rewrite longPayloadLen_low_int32. cbv zeta.
  split; [reflexivity | apply ToInt32_range].
Qed.

(** X13.  Every read hands the receive loop a buffer of exactly 65536
    bytes that starts with the bytes received and is zero after them,
    and a text whose length, the bound of the inner loop, is never more
    than the number of bytes received: the loop never starts to decode
    a frame at or after the end of the received bytes. *)
Theorem read_bounds (bytes : Uint8Array) :
  let received := firstn READ_SIZE bytes in
  (length (fst (read bytes)) <= length received)%nat
  /\ (length received <= READ_SIZE)%nat
  /\ length (snd (read bytes)) = READ_SIZE
  /\ snd (read bytes)
     = received ++ repeat x00 (READ_SIZE - length received).
Proof. exact (read_shape bytes). Qed.

(** ** The client key *)

Definition is_base64 (c : Z) : bool :=
  ((65 <=? c) && (c <=? 90)) || ((97 <=? c) && (c <=? 122))
  || ((48 <=? c) && (c <=? 57)) || (c =? 43) || (c =? 47) || (c =? 61).

Lemma b64_char_in_alphabet (i : Z) : 0 <= i -> is_base64 (b64_char i) = true.
Proof.
  intros H. unfold b64_char, is_base64.
  destruct (i <? 26) eqn:E1.
  { apply Z.ltb_lt in E1.
    replace (65 <=? 65 + i) with true by (symmetry; apply Z.leb_le; lia).
    replace (65 + i <=? 90) with true by (symmetry; apply Z.leb_le; lia).
    reflexivity. }
  apply Z.ltb_ge in E1.
  destruct (i <? 52) eqn:E2.
  { apply Z.ltb_lt in E2.
    replace (97 <=? 97 + (i - 26)) with true by (symmetry; apply Z.leb_le; lia).
    replace (97 + (i - 26) <=? 122) with true
      by (symmetry; apply Z.leb_le; lia).
    cbn [andb orb]. apply orb_true_r || rewrite !orb_true_r; reflexivity. }
  apply Z.ltb_ge in E2.
  destruct (i <? 62) eqn:E3.
  { apply Z.ltb_lt in E3.
    replace (48 <=? 48 + (i - 52)) with true by (symmetry; apply Z.leb_le; lia).
    replace (48 + (i - 52) <=? 57) with true by (symmetry; apply Z.leb_le; lia).
    cbn [andb]. rewrite !orb_true_r. reflexivity. }
  destruct (i =? 62); reflexivity.
Qed.

Lemma encodeBase64_alphabet (n : nat) :
  forall bs, (length bs <= n)%nat ->
             forallb is_base64 (encodeBase64 bs) = true.
Proof.
  induction n as [|n IH]; intros bs Hn.
  - destruct bs; [reflexivity | cbn in Hn; lia].
  - destruct bs as [|a [|b [|c t]]].
    + reflexivity.
    + cbn [encodeBase64 forallb].
      pose proof (b2z_range a).
      rewrite !b64_char_in_alphabet;
        [reflexivity | apply Z.land_nonneg; lia | apply Z.shiftr_nonneg; lia].
    + cbn [encodeBase64 forallb].
      pose proof (b2z_range a). pose proof (b2z_range b).
      rewrite !b64_char_in_alphabet;
        [reflexivity | apply Z.land_nonneg; lia | apply Z.land_nonneg; lia
        | apply Z.shiftr_nonneg; lia].
    + cbn [encodeBase64 forallb].
      pose proof (b2z_range a). pose proof (b2z_range b).
      pose proof (b2z_range c).
      rewrite !b64_char_in_alphabet;
        [ cbn [andb]; apply IH; cbn [length] in Hn; lia
        | apply Z.land_nonneg; lia | apply Z.land_nonneg; lia
        | apply Z.land_nonneg; lia | apply Z.shiftr_nonneg; lia].
Qed.

(** X22.  Whatever the random bytes, the key sent as
    [sec-websocket-key] has 24 code units, all of them from the base64
    alphabet and the last two [=]: the base64 form of 16 bytes. *)
Theorem client_key_is_base64_of_16_bytes (s : Session) :
  length (generateSecWebSocketKey s) = 24%nat
  /\ skipn 22 (generateSecWebSocketKey s) = lit "=="
  /\ forallb is_base64 (generateSecWebSocketKey s) = true.
Proof.
  split; [reflexivity|]. split; [reflexivity|].
  unfold generateSecWebSocketKey. apply (encodeBase64_alphabet 16).
  unfold next_bytes. rewrite length_map, length_seq. apply le_n.
Qed.


(** ** The validation loop started from four [false] entries *)

(** An earlier version of the class runs the same loop body on
    [checks = [false, false, false, false]]. *)
Definition checks_all_false : Checks :=
  [Some false; Some false; Some false; Some false].

(** The conditions of the four [if]s of the loop body, for one line. *)
Definition line_meets (i : nat) (key line : jsstring) : bool :=
  let field := split line (lit ": ") in
  let field0 := nth 0 field [] in
  let field1 := nth_error field 1 in
  match i with
  | 0%nat =>
      startsWith field0 (lit "HTTP/1.1")
      && same_string (lit "101") (nth_error (split field0 (lit " ")) 1)
  | 1%nat =>
      str_eqb field0 (lit "sec-websocket-accept")
      && same_string (accept_value key) field1
  | 2%nat =>
      str_eqb field0 (lit "connection")
      && match field1 with
         | Some v => str_eqb (trim v) (lit "Upgrade")
         | None => false
         end
  | _ =>
      str_eqb field0 (lit "upgrade")
      && match field1 with
         | Some v => str_eqb (trim v) (lit "websocket")
         | None => false
         end
  end.

(** Some non-empty line of the response meets condition [i]. *)
Definition some_line_meets (i : nat) (key : jsstring)
    (response : list jsstring) : bool :=
  existsb (fun line =>
             match line with
             | [] => false
             | _ :: _ => line_meets i key line
             end) response.

Lemma str_eqb_refl (a : jsstring) : str_eqb a a = true.
Proof.
  induction a as [|x a IH]; cbn [str_eqb]; [reflexivity|].
  rewrite Z.eqb_refl, IH. reflexivity.
Qed.

Lemma str_eqb_eq (a b : jsstring) : str_eqb a b = true -> a = b.
Proof.
  revert b. induction a as [|x a IH]; intros [|y b] H; cbn [str_eqb] in H;
    try discriminate; [reflexivity|].
  apply andb_true_iff in H. destruct H as [H1 H2].
  apply Z.eqb_eq in H1. f_equal; [exact H1 | apply IH; exact H2].
Qed.

Lemma check_line_four (key line : jsstring) (a b c d : bool)
    (checks : Checks) :
  check_line key line [Some a; Some b; Some c; Some d] = Some checks ->
  checks = [Some (a || line_meets 0 key line);
            Some (b || line_meets 1 key line);
            Some (c || line_meets 2 key line);
            Some (d || line_meets 3 key line)].
Proof.
  unfold check_line, line_meets.
  set (field0 := nth 0 (split line (lit ": ")) []).
  set (field1 := nth_error (split line (lit ": ")) 1).
  assert (Hex : str_eqb field0 (lit "connection") = true ->
                str_eqb field0 (lit "upgrade") = false).
  { intros E. apply str_eqb_eq in E. rewrite E. reflexivity. }
  revert Hex.
  generalize (startsWith field0 (lit "HTTP/1.1")
              && same_string (lit "101")
                   (nth_error (split field0 (lit " ")) 1)).
  generalize (str_eqb field0 (lit "sec-websocket-accept")
              && same_string (accept_value key) field1).
  generalize (str_eqb field0 (lit "connection")).
  generalize (str_eqb field0 (lit "upgrade")).
  intros e3 e2 c1 c0 Hex.
  destruct field1 as [v|].
  - generalize (str_eqb (trim v) (lit "Upgrade")).
    generalize (str_eqb (trim v) (lit "websocket")).
    intros t3 t2.
    destruct e2; [rewrite (Hex eq_refl)|];
      destruct c0, c1, t2, t3, a, b, c, d; try destruct e3;
      cbn [checks_set andb orb]; intros H; injection H as <-; reflexivity.
  - destruct e2; [intros H; discriminate H|].
    destruct e3; [intros H; discriminate H|].
    destruct c0, c1, a, b, c, d;
      cbn [checks_set andb orb]; intros H; injection H as <-; reflexivity.
Qed.

Lemma check_lines_four (key : jsstring) (response : list jsstring) :
  forall a b c d checks,
    check_lines key response [Some a; Some b; Some c; Some d] = Some checks ->
    checks = [Some (a || some_line_meets 0 key response);
              Some (b || some_line_meets 1 key response);
              Some (c || some_line_meets 2 key response);
              Some (d || some_line_meets 3 key response)].
Proof.
  induction response as [|line rest IH]; intros a b c d checks H.
  - injection H as <-. cbn [some_line_meets existsb].
    rewrite !orb_false_r. reflexivity.
  - cbn [check_lines] in H. destruct line as [|u line].
    + apply IH in H. exact H.
    + destruct (check_line key (u :: line) [Some a; Some b; Some c; Some d])
        as [cs|] eqn:E; [|discriminate].
      apply check_line_four in E. subst cs. apply IH in H. rewrite H.
      cbn [some_line_meets existsb]. fold (some_line_meets 0 key rest).
      fold (some_line_meets 1 key rest). fold (some_line_meets 2 key rest).
      fold (some_line_meets 3 key rest).
      rewrite !orb_assoc. reflexivity.
Qed.

(** X23.  Started from [[false, false, false, false]], as the earlier
    version of the class does, the validation loop and the test
    [checks.filter(c => !c).length === 0] accept a response, when no
    line makes the loop throw, exactly when each of the four conditions
    is met by some non-empty line: the status line, the accept value,
    [connection: Upgrade] and [upgrade: websocket]. *)
Theorem four_false_entries_validate (key : jsstring)
    (response : list jsstring) (checks : Checks) :
  check_lines key response checks_all_false = Some checks ->
  ((length (checks_filter negb checks) =? 0)%nat = true
   <-> some_line_meets 0 key response = true
       /\ some_line_meets 1 key response = true
       /\ some_line_meets 2 key response = true
       /\ some_line_meets 3 key response = true).
Proof.
  intros H. apply check_lines_four in H. subst checks.
  cbn [orb].
  destruct (some_line_meets 0 key response);
    destruct (some_line_meets 1 key response);
    destruct (some_line_meets 2 key response);
    destruct (some_line_meets 3 key response);
    cbn; split; intros H; try discriminate H; try tauto;
    destruct H as [H0 [H1 [H2 H3]]]; discriminate.
Qed.

Lemma four_false_entries_validate_witness :
  check_lines (lit "dGhlIHNhbXBsZSBub25jZQ==")
    (removelast (split (fst (read accepted_response)) crlf)) checks_all_false
  = Some [Some true; Some true; Some true; Some true]
  /\ some_line_meets 1 (lit "dGhlIHNhbXBsZSBub25jZQ==")
       (removelast (split (fst (read accepted_response)) crlf)) = true.
Proof.
  assert (H : check_lines (lit "dGhlIHNhbXBsZSBub25jZQ==")
                (removelast (split (fst (read accepted_response)) crlf))
                checks_all_false
              = Some [Some true; Some true; Some true; Some true])
    by (vm_compute; reflexivity).
  split; [exact H|].
  destruct (proj1 (four_false_entries_validate _ _ _ H) eq_refl)
    as [_ [H1 _]].
  exact H1.
Defined.
